(** * LinguaScrape: link normalisation, fetch engines, selector verification
      and the text-normalisation pipeline

    A shallow embedding of the core of the scraper
    ([file_processing.py], [link_scraping.py], [link_scraping_requests.py],
    [text_processing.py], [linguascrape.py]) together with the properties
    its specification states about it.

    Conventions.
    - Python [str] values are Rocq [string]s; a character is one of the 256
      code points U+0000..U+00FF, and the character tables below
      ([isspace], [isalnum], [lower_char]) are Python's on that range.
    - A Python [dict] is a [gmap]; a [list] is a [list].
    - Library calls that leave the process (the browser driver, the HTTP
      client, the HTML parser, the dialogs) are explicit arguments: a
      function receives the observations the library hands back to it.
    - A loop without bound ([while True], polling) consumes a finite list
      of observations; when the list is used up while the loop is still
      running the model answers [Pending]. *)

From Stdlib Require Import Ascii NArith QArith.
From stdpp Require Import base list strings gmap.

(** ** Characters and strings *)

Module Str.

Definition code (c : ascii) : N := N_of_ascii c.

Definition between (lo hi : N) (c : ascii) : bool :=
  ((lo <=? code c) && (code c <=? hi))%N.

Definition is_code (n : N) (c : ascii) : bool := (code c =? n)%N.

(** [str.isspace] for one character (also the class [\s] of [re]). *)
Definition isspace (c : ascii) : bool :=
  between 9 13 c || between 28 32 c || is_code 133 c || is_code 160 c.

(** [str.isdecimal]: the class [\d] of [re]. *)
Definition isdecimal (c : ascii) : bool := between 48 57 c.

(** [str.isalnum] for one character. *)
Definition isalnum (c : ascii) : bool :=
  between 48 57 c || between 65 90 c || between 97 122 c
  || is_code 170 c || between 178 179 c || is_code 181 c
  || between 185 186 c || between 188 190 c
  || between 192 214 c || between 216 246 c || between 248 255 c.

(** The class [\w] of [re]. *)
Definition isword (c : ascii) : bool := isalnum c || is_code 95 c.

(** [str.lower] on one character. *)
Definition lower_char (c : ascii) : ascii :=
  if between 65 90 c || between 192 214 c || between 216 222 c
  then ascii_of_N (code c + 32)%N
  else c.

(** [str.lower]. *)
Fixpoint lower (s : string) : string :=
  match s with
  | EmptyString => EmptyString
  | String c s' => String (lower_char c) (lower s')
  end.

(** [s.startswith(p)]. *)
Fixpoint startswith (p s : string) : bool :=
  match p, s with
  | EmptyString, _ => true
  | String a p', String b s' => if decide (a = b) then startswith p' s' else false
  | String _ _, EmptyString => false
  end.

(** [s[n:]]. *)
Fixpoint slice_from (n : nat) (s : string) : string :=
  match n, s with
  | O, _ => s
  | S n', String _ s' => slice_from n' s'
  | S _, EmptyString => EmptyString
  end.

(** [s.endswith(suf)]. *)
Definition endswith (suf s : string) : bool :=
  bool_decide (String.length suf ≤ String.length s)%nat
  && bool_decide (slice_from (String.length s - String.length suf) s = suf).

(** [s.endswith((suf1, suf2, ...))]: a tuple of suffixes. *)
Definition endswith_any (sufs : list string) (s : string) : bool :=
  existsb (λ suf, endswith suf s) sufs.

(** [bool(s)]: a string is truthy when it is not empty. *)
Definition truthy (s : string) : bool :=
  match s with EmptyString => false | String _ _ => true end.

(** [s.lstrip()], [s.rstrip()], [s.strip()]. *)
Fixpoint lstrip (s : string) : string :=
  match s with
  | EmptyString => EmptyString
  | String c s' => if isspace c then lstrip s' else s
  end.

Fixpoint rstrip (s : string) : string :=
  match s with
  | EmptyString => EmptyString
  | String c s' =>
      match rstrip s' with
      | EmptyString => if isspace c then EmptyString else String c EmptyString
      | r => String c r
      end
  end.

Definition strip (s : string) : string := rstrip (lstrip s).

(** [s.split("\n")]: the pieces between line feeds; never the empty list. *)
Fixpoint split_lines (s : string) : list string :=
  match s with
  | EmptyString => [EmptyString]
  | String c s' =>
      if decide (c = "010"%char) then EmptyString :: split_lines s'
      else match split_lines s' with
           | [] => [String c EmptyString]
           | l :: ls => String c l :: ls
           end
  end.

End Str.

(** ** Exceptions and results *)

Inductive exn :=
| KeyError (key : string)
| IndexError
| SystemExit
| NoSuchElementException
| StaleElementReferenceException
| ConnectTimeout
| ProtocolError
| SelectorSyntaxError
| OtherException (name : string).

Global Instance exn_eq_dec : EqDecision exn.
Proof. solve_decision. Defined.

(** What a call does: it returns a value, raises, or is still running when
    the observations handed to the model are used up. *)
Inductive outcome (A : Type) :=
| Returns (a : A)
| Raises (e : exn)
| Pending.
Arguments Returns {A} a.
Arguments Raises {A} e.
Arguments Pending {A}.

Global Instance outcome_bind : MBind outcome := λ A B k m,
  match m with
  | Returns a => k a
  | Raises e => Raises e
  | Pending => Pending
  end.

(** ** Keys in first-occurrence order *)

(** The order in which a Python [dict] (and [Series.unique]) keeps keys: each
    value at the place of its first occurrence.  [seen] holds the values
    already inserted. *)
Fixpoint first_occurrences_from {A} `{EqDecision A} (seen : list A) (l : list A) : list A :=
  match l with
  | [] => []
  | x :: rest =>
      if decide (x ∈ seen) then first_occurrences_from seen rest
      else x :: first_occurrences_from (x :: seen) rest
  end.

Definition first_occurrences {A} `{EqDecision A} (l : list A) : list A :=
  first_occurrences_from [] l.

(** [l.index(x)], [None] for [ValueError]. *)
Fixpoint first_index {A} `{EqDecision A} (x : A) (l : list A) : option nat :=
  match l with
  | [] => None
  | y :: rest => if decide (x = y) then Some 0%nat else S <$> first_index x rest
  end.

(** [a] stands at an earlier position of [l] than [b]. *)
Definition before {A} (l : list A) (a b : A) : Prop :=
  ∃ i j : nat, (i < j)%nat ∧ l !! i = Some a ∧ l !! j = Some b.

(** The number of characters of all the strings of a list. *)
Fixpoint total_length (l : list string) : nat :=
  match l with
  | [] => 0
  | s :: rest => String.length s + total_length rest
  end.

(** ** LinkNormalizer ([file_processing.py]) *)

(** [list(OrderedDict.fromkeys(links))]. *)
Definition fromkeys (links : list string) : list string := first_occurrences links.

(** The [if / elif / elif / else: continue] chain of the loop body:
    [Some] of the slice, or [None] when the link is skipped. *)
Definition strip_prefix (link : string) : option string :=
  if Str.startswith "https://" link then Some (Str.slice_from 8 link)
  else if Str.startswith "http://" link then Some (Str.slice_from 7 link)
  else if Str.startswith "www." link then Some (Str.slice_from 4 link)
  else None.

Definition recognized_prefixes : list string := ["https://"; "http://"; "www."].

(** One iteration of [for link in unique_links]. *)
Definition preprocess_step (link : string) : option string :=
  if Str.endswith_any [".pdf"; "rss=1"; "atom=1"] link then None
  else strip_prefix link.

(** The [for] loop, with the list [processed_links] it appends to. *)
Fixpoint preprocess_loop (unique_links processed_links : list string) : list string :=
  match unique_links with
  | [] => processed_links
  | link :: rest =>
      match preprocess_step link with
      | None => preprocess_loop rest processed_links
      | Some processed_link => preprocess_loop rest (processed_links ++ [processed_link])
      end
  end.

Definition _preprocess_links (links : list string) : list string :=
  let links := Str.lower <$> links in
  let unique_links := fromkeys links in
  preprocess_loop unique_links [].

(** ** Regular expressions (the part of [re] the patterns use) *)

Module Re.

(** A pattern after parsing.  A lazy quantifier ([*?], [+?]) and a greedy
    one accept the same strings, and [search] only asks whether a match
    exists, so both are [Star]; a group, capturing or not, is its body. *)
Inductive regex :=
| Eps
| Chr (p : ascii → bool)     (* one character of a class *)
| Seq (r1 r2 : regex)
| Alt (r1 r2 : regex)
| Star (r : regex)
| Bol                        (* [^] *)
| Eol                        (* [$] *)
| WordB.                     (* [\b] *)

Definition Plus (r : regex) : regex := Seq r (Star r).
Definition Opt (r : regex) : regex := Alt r Eps.
(** [r{,3}] *)
Definition UpTo3 (r : regex) : regex := Opt (Seq r (Opt (Seq r (Opt r)))).

(** A literal character, and the same under [(?i)]. *)
Definition ch (x : ascii) : regex := Chr (λ c, bool_decide (c = x)).
Definition chi (x : ascii) : regex :=
  Chr (λ c, bool_decide (Str.lower_char c = Str.lower_char x)).

(** [.]: any character but a line feed. *)
Definition dot : regex := Chr (λ c, negb (Str.is_code 10 c)).

(** A run of literal characters. *)
Fixpoint lit (s : string) : regex :=
  match s with
  | EmptyString => Eps
  | String c s' => Seq (ch c) (lit s')
  end.

Fixpoint liti (s : string) : regex :=
  match s with
  | EmptyString => Eps
  | String c s' => Seq (chi c) (liti s')
  end.

Fixpoint alts (rs : list regex) : regex :=
  match rs with
  | [] => Chr (λ _, false)
  | [r] => r
  | r :: rs' => Alt r (alts rs')
  end.

Definition isword_opt (c : option ascii) : bool :=
  match c with Some c => Str.isword c | None => false end.

Definition head (s : string) : option ascii :=
  match s with EmptyString => None | String c _ => Some c end.

(** A backtracking matcher in continuation-passing style.  [prev] is the
    character before the current position ([None] at the start of the
    string), [s] the rest of the string, [k] what has to match after [r].
    An iteration of [Star] that consumes nothing is not taken.
    Conjunction and disjunction are written with [if] so that evaluation
    stops at the first alternative that succeeds. *)
Fixpoint matches (r : regex) (prev : option ascii) (s : string)
    (k : option ascii → string → bool) : bool :=
  match r with
  | Eps => k prev s
  | Chr p =>
      match s with
      | EmptyString => false
      | String c s' => if p c then k (Some c) s' else false
      end
  | Seq r1 r2 => matches r1 prev s (λ prev' s', matches r2 prev' s' k)
  | Alt r1 r2 => if matches r1 prev s k then true else matches r2 prev s k
  | Star r1 =>
      (fix star (fuel : nat) (prev : option ascii) (s : string) : bool :=
         if k prev s then true else
         match fuel with
         | O => false
         | S fuel' =>
             matches r1 prev s
               (λ prev' s',
                  if String.length s' <? String.length s
                  then star fuel' prev' s' else false)
         end) (String.length s) prev s
  | Bol => match prev with None => k prev s | Some _ => false end
  | Eol =>
      match s with
      | EmptyString => k prev s
      | String c EmptyString => if Str.is_code 10 c then k prev s else false
      | _ => false
      end
  | WordB =>
      if xorb (isword_opt prev) (isword_opt (head s)) then k prev s else false
  end.

(** [pattern.search(s) is not None] *)
Fixpoint search_from (r : regex) (prev : option ascii) (s : string) : bool :=
  if matches r prev s (λ _ _, true) then true
  else match s with
       | EmptyString => false
       | String c s' => search_from r (Some c) s'
       end.

Definition search (r : regex) (s : string) : bool := search_from r None s.

(** Character classes of the patterns. *)
Definition d : regex := Chr Str.isdecimal.                       (* [\d] *)
Definition s_ : regex := Chr Str.isspace.                        (* [\s] *)
Definition S_ : regex := Chr (λ c, negb (Str.isspace c)).        (* [\S] *)
(** [(?i)[a-z]] and [(?i)[A-Z]] *)
Definition az_i : regex := Chr (λ c, Str.between 97 122 (Str.lower_char c)).
(** [(?i)[\W\d_xX]]: the set is tested on the lower-cased character. *)
Definition noise : regex :=
  Chr (λ c, let c := Str.lower_char c in
            negb (Str.isword c) || Str.isdecimal c || Str.is_code 95 c
            || Str.is_code 120 c).

End Re.

(** [sub in s] for strings. *)
Fixpoint contains (sub s : string) : bool :=
  if Str.startswith sub s then true
  else match s with
       | EmptyString => false
       | String _ s' => contains sub s'
       end.

(** ** TextNormalizer ([text_processing.py]) *)

(** A pandas [Series] of dtype object: strings and missing values. *)
Definition Series := list (option string).

(** [series.str.strip()] *)
Definition str_strip (series : Series) : Series := fmap (M:=list) (fmap Str.strip) series.

(** [Series(series.unique())] *)
Definition unique (series : Series) : Series := first_occurrences series.

(** [series.replace(pattern, None, regex=True)]: a string in which the pattern
    is found is replaced, as a whole, by the missing value. *)
Definition replace_regex (pattern : Re.regex) (series : Series) : Series :=
  (λ x, match x with
        | Some s => if Re.search pattern s then None else Some s
        | None => None
        end) <$> series.

(** [series.replace(to_replace, None)] for a string [to_replace]. *)
Definition replace_value (to_replace : string) (series : Series) : Series :=
  (λ x, match x with
        | Some s => if decide (s = to_replace) then None else Some s
        | None => None
        end) <$> series.

(** [series.dropna(how="any")]; what is left holds strings only. *)
Definition dropna (series : Series) : list string := omap id series.

Definition url_head : Re.regex :=
  (* [(https?://|www.)] *)
  Re.Alt (Re.Seq (Re.lit "http") (Re.Seq (Re.Opt (Re.ch "s")) (Re.lit "://")))
         (Re.Seq (Re.lit "www") Re.dot).

(** [^Original page: (https?://|www.)\S+?$] *)
Definition source_link_pattern : Re.regex :=
  Re.Seq Re.Bol (Re.Seq (Re.lit "Original page: ")
    (Re.Seq url_head (Re.Seq (Re.Plus Re.S_) Re.Eol))).

(** [^Text-only page created by https://toolsyep.com] *)
Definition boilerplate_pattern : Re.regex :=
  Re.Seq Re.Bol (Re.Seq (Re.lit "Text-only page created by https://toolsyep")
    (Re.Seq Re.dot (Re.lit "com"))).

(** [\[email protected\]] *)
Definition email_pattern : Re.regex := Re.lit "[email protected]".

Definition media_image : Re.regex :=
  (* [^media/image/\S+$] *)
  Re.Seq Re.Bol (Re.Seq (Re.lit "media/image/") (Re.Seq (Re.Plus Re.S_) Re.Eol)).

(** [(\[Image.*\]|^media/image/\S+$)] *)
Definition image_pattern : Re.regex :=
  Re.Alt (Re.Seq (Re.lit "[Image") (Re.Seq (Re.Star Re.dot) (Re.ch "]"))) media_image.

(** [(?i)^[\W\d_xX]*?([A-Z])?(\s|\d)*?[\W\d_xX]*?$] *)
Definition untranslatable_pattern1 : Re.regex :=
  Re.Seq Re.Bol (Re.Seq (Re.Star Re.noise) (Re.Seq (Re.Opt Re.az_i)
    (Re.Seq (Re.Star (Re.Alt Re.s_ Re.d)) (Re.Seq (Re.Star Re.noise) Re.Eol)))).

(** [(?i)^(?:[a-z]{,3}\d+[a-z]{,3}\d* )+$], written in the source without the blank *)
Definition untranslatable_pattern2 : Re.regex :=
  Re.Seq Re.Bol (Re.Seq
    (Re.Plus (Re.Seq (Re.UpTo3 Re.az_i) (Re.Seq (Re.Plus Re.d)
                (Re.Seq (Re.UpTo3 Re.az_i) (Re.Star Re.d)))))
    Re.Eol).

(** [(?i)^(?:\d+[a-z]{,3}\d+[a-z]{,3})+$] *)
Definition untranslatable_pattern3 : Re.regex :=
  Re.Seq Re.Bol (Re.Seq
    (Re.Plus (Re.Seq (Re.Plus Re.d) (Re.Seq (Re.UpTo3 Re.az_i)
                (Re.Seq (Re.Plus Re.d) (Re.UpTo3 Re.az_i)))))
    Re.Eol).

(** [(?i)\d+(?:\.\d+)?(?:\s*[eE][+-]?\d+)?\s*]
    [(?:\b(?:M|k|m|c)?(?:m|g|s|A|Hz|N|Pa|J|W|V|F|Î©|S|T|H|lm|lx)\b)] *)
Definition measurement_pattern : Re.regex :=
  Re.Seq (Re.Plus Re.d)
  (Re.Seq (Re.Opt (Re.Seq (Re.ch ".") (Re.Plus Re.d)))
  (Re.Seq (Re.Opt (Re.Seq (Re.Star Re.s_) (Re.Seq (Re.chi "e")
             (Re.Seq (Re.Opt (Re.Alt (Re.ch "+") (Re.ch "-"))) (Re.Plus Re.d)))))
  (Re.Seq (Re.Star Re.s_)
  (Re.Seq Re.WordB
  (Re.Seq (Re.Opt (Re.alts (Re.liti <$> ["M"; "k"; "m"; "c"])))
  (Re.Seq (Re.alts (Re.liti <$> ["m"; "g"; "s"; "A"; "Hz"; "N"; "Pa"; "J"; "W"; "V"; "F";
                                String "206" (String "169" EmptyString);
                                "S"; "T"; "H"; "lm"; "lx"]))
          Re.WordB)))))).

(** [^(https?://|www.)\S+?$] *)
Definition hyperlink_pattern : Re.regex :=
  Re.Seq Re.Bol (Re.Seq url_head (Re.Seq (Re.Plus Re.S_) Re.Eol)).

Definition _remove_emails (series : Series) : Series :=
  replace_regex email_pattern series.

Definition _remove_image_names (series : Series) : Series :=
  let series := replace_regex image_pattern series in
  replace_regex media_image series.

Definition _remove_untranslatables (series : Series) : Series :=
  let series := replace_regex untranslatable_pattern1 series in
  let series := replace_regex untranslatable_pattern2 series in
  replace_regex untranslatable_pattern3 series.

Definition _remove_measurements (series : Series) : Series :=
  replace_regex measurement_pattern series.

Definition _remove_hyperlinks (series : Series) : Series :=
  replace_regex hyperlink_pattern series.

(** [settings[key]] *)
Definition getitem (settings : gmap string bool) (key : string) : outcome bool :=
  match settings !! key with
  | Some b => Returns b
  | None => Raises (KeyError key)
  end.

Definition process_scraped_text (scraped_text : list string)
    (settings : gmap string bool) : outcome (list string) :=
  let series := str_strip (Some <$> scraped_text) in
  b ← getitem settings "Remove repetitions";
  let series := if b : bool then unique series else series in
  b ← getitem settings "Remove source links";
  let series := if b : bool then replace_regex source_link_pattern series else series in
  b ← getitem settings "Remove protected emails";
  let series := if b : bool then _remove_emails series else series in
  b ← getitem settings "Remove image names";
  let series := if b : bool then _remove_image_names series else series in
  b ← getitem settings "Remove untranslatables";
  let series := if b : bool then _remove_untranslatables series else series in
  b ← getitem settings "Remove measurements";
  let series := if b : bool then _remove_measurements series else series in
  b ← getitem settings "Remove hyperlinks";
  let series := if b : bool then _remove_hyperlinks series else series in
  let series := replace_regex boilerplate_pattern series in
  Returns (dropna (replace_value "" (str_strip series))).

(** The checkbox labels of [AdvancedOptions.options] ([gui.py]): the keys
    [SettingsSelector._confirm_selection] stores. *)
Definition option_labels : list string :=
  ["Remove repetitions"; "Remove image names"; "Remove protected emails";
   "Remove untranslatables"; "Remove measurements"; "Remove hyperlinks";
   "Remove source links"].

(** The key names of the specification's FilterSettings. *)
Definition spec_keys : list string :=
  ["remove_repetitions"; "remove_image_names"; "remove_protected_emails";
   "remove_untranslatables"; "remove_measurements"; "remove_hyperlinks";
   "remove_source_links"].

(** A settings map that gives every key of [keys] the value [b]. *)
Definition settings_of (keys : list string) (b : bool) : gmap string bool :=
  list_to_map ((λ k, (k, b)) <$> keys).

(** The pipeline after the look-ups, on the strings that are present:
    [sieve] keeps the strings that pass every test of a list, one test after
    the other. *)
Definition sieve (tests : list (string → bool)) (lines : list string) : list string :=
  foldl (λ acc test, filter (λ s, test s = true) acc) lines tests.

(** The test of the stage [if enabled: series = series.replace(pattern, None,
    regex=True)]. *)
Definition passes (enabled : bool) (pattern : Re.regex) (s : string) : bool :=
  negb (enabled && Re.search pattern s).

Definition normal_form (repetitions : bool) (tests : list (string → bool))
    (scraped_text : list string) : list string :=
  let stripped := Str.strip <$> scraped_text in
  let lines := if repetitions then first_occurrences stripped else stripped in
  filter (λ s, s ≠ "") (Str.strip <$> sieve tests lines).

(** The tests of [process_scraped_text], in its order, for the values of
    the six settings after "Remove repetitions". *)
Definition stage_tests (links emails images untranslatables measurements hyperlinks : bool)
    : list (string → bool) :=
  [ passes links source_link_pattern;
    passes emails email_pattern;
    passes images image_pattern; passes images media_image;
    passes untranslatables untranslatable_pattern1;
    passes untranslatables untranslatable_pattern2;
    passes untranslatables untranslatable_pattern3;
    passes measurements measurement_pattern;
    passes hyperlinks hyperlink_pattern;
    passes true boilerplate_pattern ].

(** ** Dialogs ([gui.py], [widgets.py]) *)

(** The user in front of the dialogs: what [CSSSelectorInput().css_input] is,
    call after call, and what [ScrapedTextDisplay(...).confirmed] is, call
    after call. *)
Record user := {
  inputs : list string;
  answers : list bool
}.

(** A dialog the program has shown. *)
Inductive dialog :=
| ScrapedTextDisplay (text : list string)
| InfoDialog (title message : string).

(** The texts of the confirmation prompts, in the order they were shown. *)
Definition displays (shown : list dialog) : list (list string) :=
  omap (λ d, match d with ScrapedTextDisplay text => Some text | InfoDialog _ _ => None end)
       shown.

Definition line_feed : string := String "010" EmptyString.

(** ** Browser backend ([link_scraping.py]) *)

Module link_scraping.

Definition LINK_PREFIX : string :=
  "https://www.textise.net/showText.aspx?strURL=https%253A//".
Definition TIMEOUT_LIMIT : Q := 10.

(** What reading [element.text] gives: the text, or an exception (the
    element can have gone stale since it was found). *)
Inductive text_read :=
| Text (s : string)
| TextRaises (e : exn).

(** A [WebElement]; the program reads its [text] only.  Every [WebElement]
    is truthy. *)
Record WebElement := { text : text_read }.

(** What [driver.find_element("css selector", css_selector)] does. *)
Inductive find_outcome :=
| Found (element : WebElement)
| Falsy                       (* a return value that is falsy *)
| FindRaises (e : exn).

(** One pass through the waiting loop: [driver.page_source] and
    [document.readyState]. *)
Record wait_observation := {
  wait_page_source : string;
  ready_state : string
}.

(** One pass through the polling loop: the value of
    [perf_counter() - timer_start] that the loop condition computes (the
    floating-point difference, as a rational), the answer of [find_element]
    for a selector, and [driver.page_source] (one reading serves all the
    patterns of the pass). *)
Record poll := {
  elapsed : Q;
  find_element : string → find_outcome;
  page_source : string
}.

(** One [driver.get]: the exception it raises, when it raises, and
    otherwise what the driver shows afterwards. *)
Record page_load := {
  get_raises : option exn;
  waits : list wait_observation;
  polls : list poll
}.

(** The driver: the page load that the [n]-th call of [driver.get] on an
    address starts. *)
Definition WebDriver := nat → string → page_load.

(** [_Errors.error_massages], in the insertion order of the [dict]. *)
Definition error_massages : list (Re.regex * string) :=
  [ (Re.lit "Sorry, Textise had a problem with that address", "Invalid URL!");
    (Re.Seq (Re.lit ("The site owner may have set restrictions "
                     +:+ "that prevent you from accessing the site"))
            Re.dot,
     "Restricted Access!") ].

(** [for pattern, error_type in ...items(): if pattern.search(...): return] *)
Fixpoint first_error (rules : list (Re.regex * string)) (source : string) : option string :=
  match rules with
  | [] => None
  | (pattern, error_type) :: rest =>
      if Re.search pattern source then Some error_type else first_error rest source
  end.

(** The waiting loop: [true] when it is left, [false] when the observations
    are used up before. *)
Fixpoint wait_loop (ws : list wait_observation) : bool :=
  match ws with
  | [] => false
  | w :: rest =>
      if contains "Just a moment..." (wait_page_source w)
         || negb (bool_decide (ready_state w = "complete"))
      then wait_loop rest
      else true
  end.

Definition Qltb (x y : Q) : bool := negb (Qle_bool y x).

(** The polling loop. *)
Fixpoint poll_loop (css_selector : string) (ps : list poll)
    : outcome (option WebElement * string) :=
  match ps with
  | [] => Pending
  | p :: rest =>
      if Qltb (elapsed p) TIMEOUT_LIMIT then
        match find_element p css_selector with
        | Found element => Returns (Some element, "")
        | FindRaises NoSuchElementException
        | FindRaises StaleElementReferenceException =>
            poll_loop css_selector rest                      (* [continue] *)
        | FindRaises e => Raises e
        | Falsy =>
            match first_error error_massages (page_source p) with
            | Some error_type => Returns (None, error_type)
            | None => poll_loop css_selector rest
            end
        end
      else Returns (None, "Timed out - element not found!")
  end.

Definition _is_element_present (page : page_load) (css_selector : string)
    : outcome (option WebElement * string) :=
  if wait_loop (waits page)
  then poll_loop css_selector (polls page)
  else Pending.

(** [driver.get(...)] and then [_is_element_present(driver, css_selector)],
    as both loops below call them. *)
Definition load_and_probe (page : page_load) (css_selector : string)
    : outcome (option WebElement * string) :=
  match get_raises page with
  | Some e => Raises e
  | None => _is_element_present page css_selector
  end.

(** The loop of [_verify_css_selector].  [n] counts the calls of
    [driver.get] so far; [scraped_text] is the list created before the
    loop.  The result carries the dialogs shown. *)
Fixpoint verify_loop (driver : WebDriver) (n : nat) (url : string)
    (scraped_text : list string) (css_inputs : list string) (confirms : list bool)
    : list dialog * outcome string :=
  match css_inputs with
  | [] => ([], Pending)
  | css_selector :: css_inputs =>
      if negb (Str.truthy css_selector) then ([], Raises SystemExit) else
      match load_and_probe (driver n (LINK_PREFIX +:+ url)) css_selector with
      | Pending => ([], Pending)
      | Raises e => ([], Raises e)
      | Returns (element, error_type) =>
          let info :=
            if Str.truthy error_type
            then [InfoDialog error_type "Please try another CSS Selector"]
            else [] in
          match element with
          | Some element =>
              match text element with
              | TextRaises e => ([], Raises e)
              | Text element_text =>
                  let scraped_text :=
                    scraped_text
                    ++ ["Original link: https://" +:+ url +:+ line_feed]
                    ++ Str.split_lines element_text in
                  match confirms with
                  | [] => ([ScrapedTextDisplay scraped_text], Pending)
                  | true :: _ => ([ScrapedTextDisplay scraped_text], Returns css_selector)
                  | false :: confirms =>
                      let '(shown, r) :=
                        verify_loop driver (S n) url scraped_text css_inputs confirms in
                      (ScrapedTextDisplay scraped_text :: info ++ shown, r)
                  end
              end
          | None =>
              let '(shown, r) :=
                verify_loop driver (S n) url scraped_text css_inputs confirms in
              (info ++ shown, r)
          end
      end
  end.

Definition _verify_css_selector (driver : WebDriver) (n : nat) (url : string) (u : user)
    : list dialog * outcome string :=
  verify_loop driver n url [] (inputs u) (answers u).

(** The loop of [_scrape_urls]. *)
Fixpoint scrape_loop (driver : WebDriver) (n : nat) (URLs : list string)
    (css_selector : string)
    (all_scraped_text : list string) (invalid_URLs : gmap string string)
    : outcome (list string * gmap string string) :=
  match URLs with
  | [] => Returns (all_scraped_text, invalid_URLs)
  | url :: rest =>
      r ← load_and_probe (driver n (LINK_PREFIX +:+ url)) css_selector;
      match r with
      | (Some element, _) =>
          match text element with
          | TextRaises e => Raises e
          | Text element_text =>
              scrape_loop driver (S n) rest css_selector
                (all_scraped_text ++ ["Original page: https://" +:+ url]
                                  ++ Str.split_lines element_text)
                invalid_URLs
          end
      | (None, error_type) =>
          scrape_loop driver (S n) rest css_selector
            all_scraped_text (<["https://" +:+ url := error_type]> invalid_URLs)
      end
  end.

Definition _scrape_urls (driver : WebDriver) (n : nat) (URLs : list string)
    (css_selector : string) : outcome (list string * gmap string string) :=
  scrape_loop driver n URLs css_selector [] ∅.

End link_scraping.

(** ** HTTP backend ([link_scraping_requests.py]) *)

Module link_scraping_requests.

Definition LINK_PREFIX : string :=
  "https://toolsyep.com/en/webpage-to-plain-text/?u=www.".

(** What one call of [requests.get] does. *)
Inductive get_outcome :=
| Response (content : string)
| GetRaises (e : exn).

(** What [BeautifulSoup(content, "lxml").select_one(css_selector)] does: an
    element (of which the program reads [get_text()] only; a [Tag] is always
    truthy), [None], or an exception. *)
Inductive select_outcome :=
| Element (get_text : string)
| NoElement
| SelectRaises (e : exn).

(** The network and the parser: for an address, what the successive calls
    of [requests.get] inside one [_parse_url] do. *)
Record web := {
  requests_get : string → list get_outcome;
  select_one : string → string → select_outcome
}.

(** The body of the [try]. *)
Definition parse_url_try (w : web) (got : get_outcome) (css_selector : string)
    : outcome (list string) :=
  match got with
  | GetRaises e => Raises e
  | Response content =>
      match select_one w content css_selector with
      | SelectRaises e => Raises e
      | NoElement => Returns []
      | Element get_text =>
          let element_text := Str.split_lines get_text in
          match element_text !! 1%nat with
          | None => Raises IndexError                      (* [element_text[1]] *)
          | Some second =>
              if decide (second = "HOME")
              then Returns (drop 2 element_text)
              else Returns element_text
          end
      end
  end.

(** [while True: try: ... except (ConnectTimeout, ProtocolError): continue] *)
Fixpoint parse_url_loop (w : web) (gets : list get_outcome) (css_selector : string)
    : outcome (list string) :=
  match gets with
  | [] => Pending
  | got :: rest =>
      match parse_url_try w got css_selector with
      | Raises ConnectTimeout | Raises ProtocolError => parse_url_loop w rest css_selector
      | r => r
      end
  end.

Definition _parse_url (w : web) (url css_selector : string) : outcome (list string) :=
  parse_url_loop w (requests_get w (LINK_PREFIX +:+ url)) css_selector.

(** The thread pool.  [executor.submit] creates one future per URL, in the
    order of [urls]; the workers resolve the futures in some order
    [completion], a list of task indices; the main thread takes
    [task.result()] of each task in the order of [tasks]. *)
Abbreviation futures := (gmap nat (outcome (list string))).

(** The worker that runs task [i] finishes: the future holds what
    [_parse_url] did.  A call that never ends resolves nothing. *)
Definition resolve (w : web) (urls : list string) (css_selector : string)
    (done : futures) (i : nat) : futures :=
  match urls !! i with
  | None => done
  | Some url =>
      match _parse_url w url css_selector with
      | Pending => done
      | r => <[i := r]> done
      end
  end.

Definition run_workers (w : web) (urls : list string) (css_selector : string)
    (completion : list nat) : futures :=
  foldl (resolve w urls css_selector) ∅ completion.

(** Leaving the [with ThreadPoolExecutor] block waits for every task. *)
Definition all_done (done : futures) (total : nat) : bool :=
  forallb (λ i, bool_decide (is_Some (done !! i))) (seq 0 total).

(** [for task in tasks: text.extend(task.result())], from task [i] on, for
    the [remaining] tasks of [total].  [result()] blocks until the future is
    resolved, so the main thread reads every future after its resolution;
    here all the workers have run when the collection starts. *)
Fixpoint collect (done : futures) (total i remaining : nat) (text : list string)
    : outcome (list string) :=
  match remaining with
  | O => if all_done done total then Returns text else Pending
  | S remaining =>
      match done !! i with
      | None | Some Pending => Pending       (* [result()] blocks for ever *)
      | Some (Returns lines) => collect done total (S i) remaining (text ++ lines)
      | Some (Raises e) => if all_done done total then Raises e else Pending
      end
  end.

Definition _scrape_urls_requests (w : web) (urls : list string) (css_selector : string)
    (completion : list nat) : outcome (list string) :=
  collect (run_workers w urls css_selector completion) (length urls) 0 (length urls) [].

(** The same pool step by step, with the main thread and the workers
    interleaved: a worker finishes a task that is not finished yet, or the
    main thread, waiting in [task.result()] for task [next_task], finds its
    future resolved and extends the text. *)
Record pool := {
  resolved : futures;
  next_task : nat;
  collected : list string
}.

Definition pool_start : pool :=
  {| resolved := ∅; next_task := 0; collected := [] |}.

Inductive pool_step (w : web) (urls : list string) (css_selector : string)
    : pool → pool → Prop :=
| worker_finishes i url st :
    urls !! i = Some url →
    resolved st !! i = None →
    _parse_url w url css_selector ≠ Pending →
    pool_step w urls css_selector st
      {| resolved := <[i := _parse_url w url css_selector]> (resolved st);
         next_task := next_task st;
         collected := collected st |}
| result_taken lines st :
    resolved st !! next_task st = Some (Returns lines) →
    pool_step w urls css_selector st
      {| resolved := resolved st;
         next_task := S (next_task st);
         collected := collected st ++ lines |}.

(** One round of the loop of [_verify_css_selector], up to the dialog. *)
Definition probe (w : web) (url css_selector : string)
    : outcome (list string) :=
  text ← _parse_url w url css_selector;
  Returns (filter (λ line, Str.truthy line = true) text).

(** The loop of [_verify_css_selector]; the result carries the dialogs
    shown. *)
Fixpoint verify_loop (w : web) (url css_selector : string)
    (css_inputs : list string) (confirms : list bool) : list dialog * outcome string :=
  let next confirms shown :=
    match css_inputs with
    | [] => (shown, Pending)
    | css_input :: css_inputs =>
        if negb (Str.truthy css_input) then (shown, Raises SystemExit)
        else let '(shown', r) := verify_loop w url css_input css_inputs confirms in
             (shown ++ shown', r)
    end in
  match probe w url css_selector with
  | Pending => ([], Pending)
  | Raises SelectorSyntaxError =>
      next confirms [InfoDialog "Error occurred!" "Please try another CSS Selector"]
  | Raises e => ([], Raises e)
  | Returns [] =>
      next confirms [InfoDialog "No text found!" "Please try another CSS Selector"]
  | Returns text =>
      match confirms with
      | [] => ([ScrapedTextDisplay text], Pending)
      | true :: _ => ([ScrapedTextDisplay text], Returns css_selector)
      | false :: confirms => next confirms [ScrapedTextDisplay text]
      end
  end.

Definition default_css_selector : string := "body > div > pre".

Definition _verify_css_selector (w : web) (url css_selector : string) (u : user)
    : list dialog * outcome string :=
  verify_loop w url css_selector (inputs u) (answers u).

End link_scraping_requests.

(** ** The two batch modes ([linguascrape.py]) *)

(** What a batch hands back to [scrape]: [_scrape_urls] returns a pair of
    the text and the [dict] of invalid URLs, [_scrape_urls_requests] returns
    the text. *)
Inductive batch_result :=
| TextAndInvalid (scraped_text : list string) (invalid_URLs : gmap string string)
| TextOnly (text : list string).

Definition scraped_lines (r : batch_result) : list string :=
  match r with
  | TextAndInvalid scraped_text _ => scraped_text
  | TextOnly text => text
  end.


Definition browser_batch (driver : link_scraping.WebDriver) (n : nat)
    (urls : list string) (css_selector : string) : outcome batch_result :=
  r ← link_scraping._scrape_urls driver n urls css_selector;
  Returns (TextAndInvalid r.1 r.2).


(** ** Notions used in the statements *)

(** The probe of the [n]-th page load of the browser backend. *)
Definition browser_probe (driver : link_scraping.WebDriver) (n : nat)
    (url css_selector : string) : outcome (option link_scraping.WebElement * string) :=
  link_scraping.load_and_probe
    (driver n (link_scraping.LINK_PREFIX +:+ url)) css_selector.

(** The fetch of one URL by the browser backend, as [_scrape_urls] does it:
    the probe and, for an element, the reading and splitting of its text.
    It returns the lines of the element, or no lines and an error label. *)
Definition browser_fetch (driver : link_scraping.WebDriver) (n : nat)
    (url css_selector : string) : outcome (option (list string) * string) :=
  r ← browser_probe driver n url css_selector;
  match r with
  | (Some element, error_type) =>
      match link_scraping.text element with
      | link_scraping.Text element_text =>
          Returns (Some (Str.split_lines element_text), error_type)
      | link_scraping.TextRaises e => Raises e
      end
  | (None, error_type) => Returns (None, error_type)
  end.

(** What one URL adds to the text of the browser batch. *)
Definition page_block (url : string) (fetched : outcome (option (list string) * string))
    : list string :=
  match fetched with
  | Returns (Some lines, _) => ("Original page: https://" +:+ url) :: lines
  | _ => []
  end.

(** The lines one probe of the browser verifier adds to [scraped_text]. *)
Definition source_link_line (url : string) : string :=
  "Original link: https://" +:+ url +:+ line_feed.

Definition browser_block (url : string) (element_text : string) : list string :=
  source_link_line url :: Str.split_lines element_text.

(** The blocks of the candidates of the browser verifier that found an
    element, candidate after candidate. *)
Fixpoint browser_blocks (driver : link_scraping.WebDriver) (n : nat) (url : string)
    (css_inputs : list string) : list (list string) :=
  match css_inputs with
  | [] => []
  | css_selector :: rest =>
      match browser_probe driver n url css_selector with
      | Returns (Some element, _) =>
          match link_scraping.text element with
          | link_scraping.Text element_text => [browser_block url element_text]
          | link_scraping.TextRaises _ => []
          end
      | _ => []
      end ++ browser_blocks driver (S n) url rest
  end.

(** The lists a list takes while blocks are appended to it. *)
Fixpoint running (acc : list string) (blocks : list (list string)) : list (list string) :=
  match blocks with
  | [] => []
  | block :: rest => (acc ++ block) :: running (acc ++ block) rest
  end.

(** The prompt of one candidate of the HTTP verifier: the non-empty lines of
    its probe, when there are any. *)
Definition http_prompt (w : link_scraping_requests.web) (url css_selector : string)
    : option (list string) :=
  match link_scraping_requests.probe w url css_selector with
  | Returns (line :: lines) => Some (line :: lines)
  | _ => None
  end.

(** The invariant of a normalized link, as the specification words it. *)
Definition NormalizedLink (link : string) : Prop :=
  link ≠ "" ∧ ∀ p, p ∈ recognized_prefixes → Str.startswith p link = false.

(** A string that does not begin with white space. *)
Definition clean_start (s : string) : Prop :=
  match s with
  | EmptyString => True
  | String c _ => Str.isspace c = false
  end.

(** The selector finds nothing at a poll: [find_element] raises one of the
    two exceptions the loop catches. *)
Definition absent (css_selector : string) (p : link_scraping.poll) : Prop :=
  link_scraping.find_element p css_selector = link_scraping.FindRaises NoSuchElementException
  ∨ link_scraping.find_element p css_selector = link_scraping.FindRaises StaleElementReferenceException.

(** What holds of the pool at every moment of every interleaving. *)
Definition pool_invariant (w : link_scraping_requests.web) (urls : list string)
    (css_selector : string) (blocks : list (list string))
    (st : link_scraping_requests.pool) : Prop :=
  (∀ i r, link_scraping_requests.resolved st !! i = Some r →
     ∃ url, urls !! i = Some url
            ∧ r = link_scraping_requests._parse_url w url css_selector)
  ∧ link_scraping_requests.collected st
    = concat (take (link_scraping_requests.next_task st) blocks)
  ∧ (link_scraping_requests.next_task st ≤ length urls)%nat.

(** ** Sample observations *)

Definition restricted_page : string :=
  "<html><body><p>The site owner may have set restrictions "
  +:+ "that prevent you from accessing the site.</p></body></html>".

(** A poll at which the selector finds nothing: Selenium raises. *)
Definition absent_poll (elapsed : Q) (source : string) : link_scraping.poll :=
  {| link_scraping.elapsed := elapsed;
     link_scraping.find_element := λ _, link_scraping.FindRaises NoSuchElementException;
     link_scraping.page_source := source |}.

Definition loaded : link_scraping.wait_observation :=
  {| link_scraping.wait_page_source := "<html></html>";
     link_scraping.ready_state := "complete" |}.

(** A page that shows the restricted-access message and never has the
    element; the loop condition finds 0, 3, 6, 9 and 12 seconds elapsed. *)
Definition restricted_load : link_scraping.page_load :=
  {| link_scraping.get_raises := None;
     link_scraping.waits := [loaded];
     link_scraping.polls :=
       [absent_poll 0 restricted_page; absent_poll 3 restricted_page;
        absent_poll 6 restricted_page; absent_poll 9 restricted_page;
        absent_poll 12 restricted_page] |}.

(** A page on which every selector finds an element with the text of the
    selector itself. *)
Definition echo_load : link_scraping.page_load :=
  {| link_scraping.get_raises := None;
     link_scraping.waits := [loaded];
     link_scraping.polls :=
       [ {| link_scraping.elapsed := 1;
            link_scraping.find_element := λ css_selector,
              link_scraping.Found
                {| link_scraping.text := link_scraping.Text css_selector |};
            link_scraping.page_source := "<html></html>" |} ] |}.

(** A web on which every selector finds an element with the given text. *)
Definition text_web (get_text : string) : link_scraping_requests.web :=
  {| link_scraping_requests.requests_get := λ _,
       [link_scraping_requests.Response "<html></html>"];
     link_scraping_requests.select_one := λ _ _,
       link_scraping_requests.Element get_text |}.

(** A page that the driver cannot load: [driver.get] raises. *)
Definition unreachable_load : link_scraping.page_load :=
  {| link_scraping.get_raises := Some (OtherException "WebDriverException");
     link_scraping.waits := [];
     link_scraping.polls := [] |}.

(** A driver whose first page is restricted and lacks the element, and whose
    later pages have it. *)
Definition restricted_then_echo : link_scraping.WebDriver :=
  λ n _, match n with O => restricted_load | S _ => echo_load end.



(** ** Picking the file of links ([file_processing.py]) *)

Module file_processing.

(** What [read_xml(file)] gives: an exception, or a frame, of which the
    program reads the column [loc] when there is one. *)
Inductive xml_read :=
| XmlRaises (e : exn)
| XmlFrame (loc : option (list string)).

(** What [open(file).readlines()] gives. *)
Inductive txt_read :=
| TxtRaises (e : exn)
| TxtLines (lines : list string).

(** One answer of [QFileDialog.getOpenFileName]: the path (empty when the
    dialog is cancelled) and what reading the file gives. *)
Record chosen_file := {
  file : string;
  read_xml : xml_read;
  readlines : txt_read
}.

(** The dialogs of this module. *)
Inductive file_dialog :=
| ErrorDialog (title message : string)
| YesNoDialog (title question : string).

Definition invalid_file : file_dialog :=
  ErrorDialog "Invalid file"
    ("Please insert an .xml file from www.xml-sitemaps.com "
     +:+ "or simply a .txt file containing links and try again.").

(** [_process_file]: the dialogs shown, the result, and the answers of the
    file dialog that remain. *)
Fixpoint _process_file (files : list chosen_file)
    : list file_dialog * outcome (list string) * list chosen_file :=
  match files with
  | [] => ([], Pending, [])
  | f :: rest =>
      let again :=
        let '(shown, r, remaining) := _process_file rest in
        (invalid_file :: shown, r, remaining) in
      if negb (Str.truthy (file f)) then ([], Raises SystemExit, rest)
      else if Str.endswith ".xml" (file f) then
        match read_xml f with
        | XmlRaises e => ([], Raises e, rest)
        | XmlFrame (Some loc) => ([], Returns loc, rest)
        | XmlFrame None => again
        end
      else if Str.endswith ".txt" (file f) then
        match readlines f with
        | TxtRaises e => ([], Raises e, rest)
        | TxtLines [] => again
        | TxtLines links => ([], Returns links, rest)
        end
      else again
  end.

Definition no_links : file_dialog :=
  YesNoDialog "No suitable links were found!"
    ("Please select a file containing links suitable for extraction."
     +:+ line_feed +:+ "Would you like to select a different file?").

(** [browse_and_process_file].  [answers] holds what [dialog.answer] is,
    dialog after dialog: the text a button has set, or nothing when no
    button was clicked (reading the attribute raises then). *)
Fixpoint browse_and_process_file (files : list chosen_file)
    (answers : list (option string)) {struct answers}
    : list file_dialog * outcome (list string) :=
  let '(shown, r, remaining) := _process_file files in
  match r with
  | Pending => (shown, Pending)
  | Raises e => (shown, Raises e)
  | Returns links =>
      match _preprocess_links links with
      | [] =>
          match answers with
          | [] => (shown ++ [no_links], Pending)
          | None :: _ => (shown ++ [no_links], Raises (OtherException "AttributeError"))
          | Some answer :: answers =>
              if decide (answer = "No") then (shown ++ [no_links], Raises SystemExit)
              else let '(shown', r') := browse_and_process_file remaining answers in
                   (shown ++ [no_links] ++ shown', r')
          end
      | processed_links => (shown, Returns processed_links)
      end
  end.

End file_processing.

(** ** The settings dialog ([gui.py], [widgets.py]) *)

Module gui.

(** A check box: its label and whether it is checked when the dialog
    closes. *)
Record QCheckBox := {
  text : string;
  isChecked : bool
}.

(** [SettingsSelector._add_checkboxes]: one check box for every label of
    [AdvancedOptions.options]; [checked] is the state the user leaves it in. *)
Definition _add_checkboxes (checked : string → bool) : list QCheckBox :=
  (λ label, {| text := label; isChecked := checked label |}) <$> option_labels.

(** [SettingsSelector._confirm_selection] *)
Definition _confirm_selection (checkboxes : list QCheckBox)
    (selected_settings : gmap string bool) : gmap string bool :=
  foldl (λ settings box, <[text box := isChecked box]> settings)
        selected_settings checkboxes.

(** [SettingsSelector().selected_settings]: filled when the user clicks the
    button, left empty when the dialog is closed otherwise. *)
Definition SettingsSelector (checked : string → bool) (confirm_clicked : bool)
    : gmap string bool :=
  if confirm_clicked then _confirm_selection (_add_checkboxes checked) ∅ else ∅.

(** [get_user_input], given what the two dialogs leave. *)
Definition get_user_input (selected_method : string)
    (selected_settings : gmap string bool) : outcome (string * gmap string bool) :=
  if negb (Str.truthy selected_method) then Raises SystemExit
  else if bool_decide (selected_settings = ∅) then Raises SystemExit
  else Returns (selected_method, selected_settings).

End gui.

(** ** More notions for statements *)

(** The keys of the settings in the order [process_scraped_text] looks them
    up. *)
Definition lookup_order : list string :=
  ["Remove repetitions"; "Remove source links"; "Remove protected emails";
   "Remove image names"; "Remove untranslatables"; "Remove measurements";
   "Remove hyperlinks"].

(** A string without white space. *)
Fixpoint no_space (s : string) : bool :=
  match s with
  | EmptyString => true
  | String c s' => if Str.isspace c then false else no_space s'
  end.

(** [line_feed.join(lines)] *)
Fixpoint join_lines (lines : list string) : string :=
  match lines with
  | [] => ""
  | [line] => line
  | line :: rest => line +:+ line_feed +:+ join_lines rest
  end.

(** The character before the position that follows [p], when the character
    before [p] is [prev]. *)
Fixpoint last_char (prev : option ascii) (p : string) : option ascii :=
  match p with
  | EmptyString => prev
  | String c p' => last_char (Some c) p'
  end.

(** The three labels [_is_element_present] gives to a failure. *)
Definition error_labels : list string :=
  ["Timed out - element not found!"; "Invalid URL!"; "Restricted Access!"].

(** The loop of [Re.matches] for [Star r], with its fuel as an argument. *)
Definition star_loop (r : Re.regex) (k : option ascii → string → bool)
    : nat → option ascii → string → bool :=
  fix star (fuel : nat) (prev : option ascii) (s : string) : bool :=
    if k prev s then true else
    match fuel with
    | O => false
    | S fuel' =>
        Re.matches r prev s
          (λ prev' s',
             if String.length s' <? String.length s
             then star fuel' prev' s' else false)
    end.

(** * Properties *)

Example process_scraped_text_ex1 :
  process_scraped_text
    ["  Hello world  "; "Original page: https://a.com/x"; "Distance: 5.2 km";
     "Hello world"; "[email protected]"; "123"; "a1b2"; "www.example.com";
     "media/image/pic.png"; "see [Image: cat] here"; "";
     "Text-only page created by https://toolsyep.com on Monday"; "Bonjour"]
    (settings_of option_labels true)
  = Returns ["Hello world"; "Bonjour"].
Proof. vm_compute. reflexivity. Qed.

Example process_scraped_text_ex2 :
  process_scraped_text
    ["  Hello world  "; "Original page: https://a.com/x"; "Distance: 5.2 km";
     "Hello world"; "";
     "Text-only page created by https://toolsyep.com on Monday"; "Bonjour"]
    (settings_of option_labels false)
  = Returns ["Hello world"; "Original page: https://a.com/x"; "Distance: 5.2 km";
             "Hello world"; "Bonjour"].
Proof. vm_compute. reflexivity. Qed.

Example preprocess_links_ex1 :
  _preprocess_links ["WWW.Example.com/path"; "ftp://x.com"; "HTTPS://Example.com/file.PDF";
                     "http://a.com/?rss=1"; "www.example.com/PATH"; "http://b.org"]
  = ["example.com/path"; "b.org"].
Proof. vm_compute. reflexivity. Qed.

(** ** Strings *)

Lemma append_String a p s : String a p +:+ s = String a (p +:+ s).
Proof. reflexivity. Qed.

Lemma startswith_append p s :
  Str.startswith p s = true → s = p +:+ Str.slice_from (String.length p) s.
Proof.
  revert s. induction p as [|a p IH]; intros [|b s]; simpl; try done.
  case_decide; [|done]. intros Hp. subst. rewrite append_String. f_equal. by apply IH.
Qed.

Lemma length_append p s : String.length (p +:+ s) = (String.length p + String.length s)%nat.
Proof. induction p; [done | rewrite append_String; simpl; by f_equal]. Qed.

Lemma length_lower s : String.length (Str.lower s) = String.length s.
Proof. induction s; simpl; [done | by f_equal]. Qed.

(** ** Keys in first-occurrence order *)

Section first_occurrences.
Context {A : Type} `{EqDecision A}.
Implicit Types (l seen : list A) (x a b : A).

Lemma elem_of_first_occurrences_from seen l x :
  x ∈ first_occurrences_from seen l ↔ x ∈ l ∧ x ∉ seen.
Proof.
  revert seen. induction l as [|y l IH]; intros seen; simpl.
  - set_solver.
  - case_decide.
    + rewrite IH. set_solver.
    + rewrite elem_of_cons, IH. destruct (decide (x = y)); set_solver.
Qed.

Lemma elem_of_first_occurrences l x : x ∈ first_occurrences l ↔ x ∈ l.
Proof. unfold first_occurrences. rewrite elem_of_first_occurrences_from. set_solver. Qed.

Lemma NoDup_first_occurrences_from seen l : NoDup (first_occurrences_from seen l).
Proof.
  revert seen. induction l as [|y l IH]; intros seen; simpl.
  - constructor.
  - case_decide; [done|]. constructor; [|done].
    rewrite elem_of_first_occurrences_from. set_solver.
Qed.

Lemma first_occurrences_from_NoDup seen l :
  NoDup l → (∀ x, x ∈ l → x ∉ seen) → first_occurrences_from seen l = l.
Proof.
  intros Hnd. revert seen. induction Hnd as [|y l Hy Hnd IH]; intros seen Hseen; simpl.
  - done.
  - case_decide as Hin; [by apply Hseen in Hin; [|left]|].
    f_equal. apply IH. intros x Hx. rewrite not_elem_of_cons. split.
    + intros ->. done.
    + apply Hseen. by right.
Qed.

Lemma first_index_is_Some x l : x ∈ l → is_Some (first_index x l).
Proof.
  induction l as [|y l IH]; simpl; [by intros ?%elem_of_nil|].
  intros Hx. case_decide; [by eexists|].
  apply elem_of_cons in Hx as [?|Hx]; [done|].
  destruct (IH Hx) as [n ->]. by eexists.
Qed.

Lemma before_cons x l a b :
  before (x :: l) a b ↔ (a = x ∧ b ∈ l) ∨ before l a b.
Proof.
  split.
  - intros ([|i] & [|j] & Hij & Ha & Hb); simpl in *; try lia.
    + left. split; [congruence|]. by eapply list_elem_of_lookup_2.
    + right. exists i, j. split; [lia | done].
  - intros [[-> Hb]|(i & j & Hij & Ha & Hb)].
    + apply list_elem_of_lookup in Hb as [j Hj]. exists 0%nat, (S j). split; [lia | done].
    + exists (S i), (S j). split; [lia | done].
Qed.

Lemma before_nil a b : ¬ before (@nil A) a b.
Proof. by intros (i & j & _ & Ha & _). Qed.

Lemma before_sublist l1 l2 a b :
  l1 `sublist_of` l2 → before l1 a b → before l2 a b.
Proof.
  induction 1 as [|x l1 l2 Hsub IH|x l1 l2 Hsub IH]; [done|..].
  - rewrite !before_cons. intros [[-> Hb]|Hbef]; [left | right; auto].
    split; [done|]. by eapply sublist_subseteq.
  - intros Hbef. apply before_cons. right. auto.
Qed.

(** Two values of the result stand in the order of their first occurrences
    in the argument. *)
Lemma first_occurrences_from_order seen l a b :
  before (first_occurrences_from seen l) a b →
  ∃ m n, first_index a l = Some m ∧ first_index b l = Some n ∧ (m < n)%nat.
Proof.
  revert seen. induction l as [|y l IH]; intros seen; simpl.
  - by intros ?%before_nil.
  - case_decide as Hy.
    + intros Hbef.
      assert (a ∈ first_occurrences_from seen l ∧ b ∈ first_occurrences_from seen l)
        as [Ha Hb].
      { destruct Hbef as (i & j & _ & Ha & Hb).
        split; by eapply list_elem_of_lookup_2. }
      apply elem_of_first_occurrences_from in Ha as [_ Ha], Hb as [_ Hb].
      destruct (IH _ Hbef) as (m & n & -> & -> & Hmn).
      rewrite !decide_False by congruence. exists (S m), (S n). split_and!; [done..|lia].
    + rewrite before_cons. intros [[-> Hb]|Hbef].
      * apply elem_of_first_occurrences_from in Hb as [Hb Hby].
        rewrite decide_True by done. rewrite decide_False by set_solver.
        destruct (first_index_is_Some _ _ Hb) as [n ->].
        exists 0%nat, (S n). split_and!; [done..|lia].
      * assert (a ∈ first_occurrences_from (y :: seen) l
                ∧ b ∈ first_occurrences_from (y :: seen) l) as [Ha Hb].
        { destruct Hbef as (i & j & _ & Ha & Hb).
          split; by eapply list_elem_of_lookup_2. }
        apply elem_of_first_occurrences_from in Ha as [_ Ha], Hb as [_ Hb].
        destruct (IH _ Hbef) as (m & n & -> & -> & Hmn).
        rewrite !decide_False by set_solver.
        exists (S m), (S n). split_and!; [done..|lia].
Qed.

Lemma first_occurrences_from_sublist seen l : first_occurrences_from seen l `sublist_of` l.
Proof.
  revert seen. induction l as [|y l IH]; intros seen; simpl; [done|].
  case_decide; [by apply sublist_cons | by apply sublist_skip].
Qed.
End first_occurrences.

(** ** LinkNormalizer *)

Lemma strip_prefix_Some link out :
  strip_prefix link = Some out →
  ∃ p, p ∈ recognized_prefixes ∧ link = p +:+ out.
Proof.
  unfold strip_prefix, recognized_prefixes.
  destruct (Str.startswith "https://" link) eqn:H1;
    [|destruct (Str.startswith "http://" link) eqn:H2;
      [|destruct (Str.startswith "www." link) eqn:H3; [|done]]];
    intros [= <-].
  - exists "https://". split; [set_solver | exact (startswith_append _ _ H1)].
  - exists "http://". split; [set_solver | exact (startswith_append _ _ H2)].
  - exists "www.". split; [set_solver | exact (startswith_append _ _ H3)].
Qed.

Lemma preprocess_step_Some link out :
  preprocess_step link = Some out →
  ∃ p, p ∈ recognized_prefixes ∧ link = p +:+ out.
Proof.
  unfold preprocess_step. destruct (Str.endswith_any _ _); [done|].
  apply strip_prefix_Some.
Qed.

Lemma recognized_prefix_length p : p ∈ recognized_prefixes → (4 ≤ String.length p)%nat.
Proof.
  unfold recognized_prefixes. rewrite !elem_of_cons, elem_of_nil.
  intros [->|[->|[->|[]]]]; simpl; lia.
Qed.

(** The loop appends the results of its iterations to the list it starts with. *)
Lemma preprocess_loop_omap unique_links processed_links :
  preprocess_loop unique_links processed_links
  = processed_links ++ omap preprocess_step unique_links.
Proof.
  revert processed_links.
  induction unique_links as [|link rest IH]; intros acc; simpl.
  - by rewrite app_nil_r.
  - destruct (preprocess_step link); rewrite IH; [by rewrite <-app_assoc | done].
Qed.

Lemma preprocess_links_omap links :
  _preprocess_links links = omap preprocess_step (fromkeys (Str.lower <$> links)).
Proof. unfold _preprocess_links. by rewrite preprocess_loop_omap. Qed.

Lemma omap_Forall2_filter {A B} (f : A → option B) (l : list A) :
  Forall2 (λ a b, f a = Some b) (filter (λ a, is_Some (f a)) l) (omap f l).
Proof.
  induction l as [|a l IH]; simpl; [constructor|].
  destruct (f a) as [b|] eqn:Hfa.
  - rewrite filter_cons_True by (by rewrite Hfa). by constructor.
  - rewrite filter_cons_False; [done|]. rewrite Hfa. by intros [? ?].
Qed.

(** C3, as stated, fails: two raw links that differ in their prefix only
    give the same entry twice. *)
Lemma preprocess_links_duplicates :
  _preprocess_links ["https://a.com"; "http://a.com"] = ["a.com"; "a.com"]
  ∧ ¬ NoDup (Str.lower <$> _preprocess_links ["https://a.com"; "http://a.com"]).
Proof.
  split; [by vm_compute|].
  intros Hnd. vm_compute in Hnd. apply NoDup_cons in Hnd as [Hin _].
  apply Hin. by left.
Qed.

(** C3 (amended): the entries of the output come, one for one and in order,
    from pairwise different lower-cased raw links by removal of one
    recognized prefix, and these source links stand in the order of their
    first occurrences in the lower-cased input. *)
Theorem preprocess_links_first_seen_order (links : list string) :
  ∃ srcs : list string,
    Forall2 (λ src out, ∃ p, p ∈ recognized_prefixes ∧ src = p +:+ out)
            srcs (_preprocess_links links)
    ∧ NoDup srcs
    ∧ (∀ src, src ∈ srcs → src ∈ Str.lower <$> links)
    ∧ (∀ a b, before srcs a b →
         ∃ m n, first_index a (Str.lower <$> links) = Some m
                ∧ first_index b (Str.lower <$> links) = Some n ∧ (m < n)%nat).
Proof.
  set (lows := Str.lower <$> links).
  exists (filter (λ a, is_Some (preprocess_step a)) (fromkeys lows)).
  split_and!.
  - rewrite preprocess_links_omap.
    eapply Forall2_impl; [apply omap_Forall2_filter|].
    intros src out. apply preprocess_step_Some.
  - apply NoDup_filter, NoDup_first_occurrences_from.
  - intros src [_ Hsrc]%list_elem_of_filter.
    unfold fromkeys in Hsrc. by rewrite elem_of_first_occurrences in Hsrc.
  - intros a b Hbef. unfold fromkeys in Hbef. eapply first_occurrences_from_order.
    eapply before_sublist; [|exact Hbef]. apply sublist_filter.
Qed.

(** C5, as stated, fails: a bare prefix gives the empty entry, a doubled
    prefix gives an entry that begins with a prefix. *)
Lemma preprocess_links_not_normalized :
  _preprocess_links ["https://"; "https://www.a.com"] = [""; "www.a.com"]
  ∧ ¬ Forall NormalizedLink (_preprocess_links ["https://"; "https://www.a.com"]).
Proof.
  split; [by vm_compute|].
  intros Hall. vm_compute in Hall. apply Forall_cons in Hall as [[Hne _] _]. done.
Qed.

(** C5 (amended): every entry of the output is a lower-cased raw link with
    exactly one recognized prefix removed from its front. *)
Theorem preprocess_links_one_prefix_removed (links : list string) (out : string) :
  out ∈ _preprocess_links links →
  ∃ raw p, raw ∈ links ∧ p ∈ recognized_prefixes ∧ Str.lower raw = p +:+ out.
Proof.
  rewrite preprocess_links_omap, list_elem_of_omap.
  intros (src & Hsrc & Hstep). unfold fromkeys in Hsrc.
  rewrite elem_of_first_occurrences in Hsrc.
  apply list_elem_of_fmap in Hsrc as (raw & -> & Hraw).
  apply preprocess_step_Some in Hstep as (p & Hp & Heq).
  by exists raw, p.
Qed.

Lemma preprocess_links_one_prefix_removed_witness :
  ∃ raw p, raw ∈ ["HTTPS://WWW.A.com"] ∧ p ∈ recognized_prefixes
           ∧ Str.lower raw = p +:+ "www.a.com".
Proof.
  apply (preprocess_links_one_prefix_removed ["HTTPS://WWW.A.com"] "www.a.com").
  vm_compute. by left.
Defined.

Lemma total_length_app l1 l2 :
  total_length (l1 ++ l2) = (total_length l1 + total_length l2)%nat.
Proof. induction l1; simpl; lia. Qed.

Lemma total_length_lower l : total_length (Str.lower <$> l) = total_length l.
Proof. induction l as [|x l IH]; csimpl; [done|]. rewrite length_lower, IH. done. Qed.

Lemma total_length_first_occurrences_from seen l :
  (total_length (first_occurrences_from seen l) ≤ total_length l)%nat.
Proof.
  revert seen. induction l as [|x l IH]; intros seen; simpl; [done|].
  case_decide; simpl; [specialize (IH seen) | specialize (IH (x :: seen))]; lia.
Qed.

(** Every entry that survives an iteration lost four characters at least. *)
Lemma total_length_preprocess l :
  (total_length (omap preprocess_step l) + 4 * length (omap preprocess_step l)
   ≤ total_length l)%nat.
Proof.
  induction l as [|x l IH]; csimpl; [done|].
  destruct (preprocess_step x) as [out|] eqn:Hstep; csimpl; [|lia].
  apply preprocess_step_Some in Hstep as (p & Hp%recognized_prefix_length & ->).
  rewrite length_append. lia.
Qed.

Lemma preprocess_links_shrinks links :
  (total_length (_preprocess_links links) + 4 * length (_preprocess_links links)
   ≤ total_length links)%nat.
Proof.
  rewrite preprocess_links_omap. unfold fromkeys, first_occurrences.
  etrans; [apply total_length_preprocess|].
  etrans; [apply total_length_first_occurrences_from|].
  by rewrite total_length_lower.
Qed.

(** The only list the normalizer leaves as it is, is the empty list. *)
Lemma preprocess_links_fixpoint links :
  _preprocess_links links = links ↔ links = [].
Proof.
  split; [|by intros ->].
  intros Heq. pose proof (preprocess_links_shrinks links) as Hle.
  rewrite Heq in Hle. destruct links; [done | simpl in Hle; lia].
Qed.

(** C4, as stated, fails: the second run drops the entry the first run made. *)
Lemma preprocess_links_not_idempotent :
  _preprocess_links ["https://a.com"] = ["a.com"]
  ∧ _preprocess_links (_preprocess_links ["https://a.com"]) = []
  ∧ _preprocess_links (_preprocess_links ["https://a.com"])
    ≠ _preprocess_links ["https://a.com"].
Proof. by vm_compute. Qed.

(** C4 (amended): a second run gives back the output of the first run
    exactly when that output is empty. *)
Theorem preprocess_links_twice (links : list string) :
  _preprocess_links (_preprocess_links links) = _preprocess_links links
  ↔ _preprocess_links links = [].
Proof. apply preprocess_links_fixpoint. Qed.

(** ** TextNormalizer *)

Lemma lstrip_idemp s : Str.lstrip (Str.lstrip s) = Str.lstrip s.
Proof.
  induction s as [|c s IH]; simpl; [done|].
  destruct (Str.isspace c) eqn:Hc; [done|]. simpl. by rewrite Hc.
Qed.

Lemma rstrip_idemp s : Str.rstrip (Str.rstrip s) = Str.rstrip s.
Proof.
  induction s as [|c s IH]; simpl; [done|].
  destruct (Str.rstrip s) as [|d r] eqn:Hr.
  - destruct (Str.isspace c) eqn:Hc; simpl; [done|]. by rewrite Hc.
  - change (Str.rstrip (String c (String d r))) with
      (match Str.rstrip (String d r) with
       | EmptyString => if Str.isspace c then EmptyString else String c EmptyString
       | r' => String c r'
       end).
    by rewrite IH.
Qed.

Lemma lstrip_clean_start s : clean_start (Str.lstrip s).
Proof.
  induction s as [|c s IH]; simpl; [done|].
  by destruct (Str.isspace c) eqn:Hc.
Qed.

Lemma clean_start_lstrip s : clean_start s → Str.lstrip s = s.
Proof. destruct s as [|c s]; simpl; [done|]. by intros ->. Qed.

Lemma rstrip_clean_start s : clean_start s → clean_start (Str.rstrip s).
Proof.
  destruct s as [|c s]; simpl; [done|]. intros Hc.
  destruct (Str.rstrip s); [by rewrite Hc | done].
Qed.

Lemma strip_idemp s : Str.strip (Str.strip s) = Str.strip s.
Proof.
  unfold Str.strip.
  rewrite (clean_start_lstrip (Str.rstrip _))
    by apply rstrip_clean_start, lstrip_clean_start.
  apply rstrip_idemp.
Qed.

(** *** What the stages do to the strings that are present *)

Lemma dropna_Some l : dropna (Some <$> l) = l.
Proof. unfold dropna. induction l as [|x l IH]; csimpl; [done | by rewrite IH]. Qed.

Lemma dropna_str_strip series : dropna (str_strip series) = Str.strip <$> dropna series.
Proof.
  unfold dropna, str_strip.
  induction series as [|[x|] l IH]; csimpl; [done | by rewrite IH | done].
Qed.

Lemma dropna_replace_regex enabled pattern series :
  dropna (if enabled : bool then replace_regex pattern series else series)
  = filter (λ s, passes enabled pattern s = true) (dropna series).
Proof.
  unfold passes. destruct enabled; simpl.
  - unfold dropna, replace_regex.
    induction series as [|[x|] l IH]; csimpl; [done| |done].
    destruct (Re.search pattern x) eqn:Hx; csimpl.
    + rewrite filter_cons_False by (by rewrite Hx). done.
    + rewrite filter_cons_True by (by rewrite Hx). by rewrite IH.
  - induction (dropna series) as [|x l IH]; [done|].
    rewrite filter_cons_True by done. by rewrite <-IH.
Qed.

Lemma dropna_replace_value to_replace series :
  dropna (replace_value to_replace series)
  = filter (λ s, s ≠ to_replace) (dropna series).
Proof.
  unfold dropna, replace_value.
  induction series as [|[x|] l IH]; csimpl; [done| |done].
  case_decide; csimpl.
  - by rewrite filter_cons_False by (by intros []).
  - rewrite filter_cons_True by done. by rewrite IH.
Qed.

Lemma dropna_first_occurrences_from seen series :
  dropna (first_occurrences_from seen series)
  = first_occurrences_from (dropna seen) (dropna series).
Proof.
  unfold dropna. revert seen.
  induction series as [|[x|] l IH]; intros seen; csimpl; [done|..].
  - assert (Some x ∈ seen ↔ x ∈ omap id seen) as Hiff.
    { rewrite list_elem_of_omap. split; [by exists (Some x)|].
      by intros ([y|] & Hy & [= <-]). }
    destruct (decide (Some x ∈ seen)), (decide (x ∈ omap id seen)); try tauto.
    + apply IH.
    + csimpl. f_equal. apply (IH (Some x :: seen)).
  - case_decide; [apply IH|]. csimpl. apply (IH (None :: seen)).
Qed.

Lemma dropna_unique enabled series :
  dropna (if enabled : bool then unique series else series)
  = if enabled then first_occurrences (dropna series) else dropna series.
Proof. destruct enabled; [|done]. apply dropna_first_occurrences_from. Qed.

(** *** The sieve *)

Lemma sieve_sublist tests lines : sieve tests lines `sublist_of` lines.
Proof.
  unfold sieve. revert lines. induction tests as [|t tests IH]; intros lines; simpl; [done|].
  etrans; [apply IH | apply sublist_filter].
Qed.

Lemma sieve_passes tests lines s :
  s ∈ sieve tests lines → Forall (λ test, test s = true) tests.
Proof.
  unfold sieve. revert lines. induction tests as [|t tests IH]; intros lines; simpl.
  - constructor.
  - intros Hs. constructor; [|by eapply IH].
    eapply elem_of_sublist in Hs; [|apply (sieve_sublist tests)].
    by apply list_elem_of_filter in Hs as [? _].
Qed.

Lemma filter_all {A} (P : A → Prop) `{!∀ x, Decision (P x)} (l : list A) :
  Forall P l → filter P l = l.
Proof.
  induction 1 as [|x l Hx Hl IH]; [done|].
  rewrite filter_cons_True by done. by rewrite IH.
Qed.

Lemma sieve_all tests lines :
  Forall (λ s, Forall (λ test, test s = true) tests) lines → sieve tests lines = lines.
Proof.
  unfold sieve. revert lines. induction tests as [|t tests IH]; intros lines Hall; simpl; [done|].
  rewrite filter_all.
  - apply IH. eapply Forall_impl; [done|]. by intros s [_ ?]%Forall_cons_1.
  - eapply Forall_impl; [done|]. by intros s [? _]%Forall_cons_1.
Qed.

Lemma fmap_fixed {A} (f : A → A) (l : list A) :
  Forall (λ x, f x = x) l → f <$> l = l.
Proof. induction 1 as [|x l Hx Hl IH]; csimpl; [done | by rewrite Hx, IH]. Qed.

(** The normal form is reached in one run. *)
Lemma normal_form_idemp repetitions tests scraped_text :
  normal_form repetitions tests (normal_form repetitions tests scraped_text)
  = normal_form repetitions tests scraped_text.
Proof.
  unfold normal_form.
  set (stripped := Str.strip <$> scraped_text).
  set (lines := if repetitions then first_occurrences stripped else stripped).
  set (kept := sieve tests lines).
  assert (Forall (λ x, Str.strip x = x) lines) as Hlines.
  { apply Forall_forall. intros x Hx.
    assert (x ∈ stripped) as Hin.
    { subst lines. destruct repetitions; [by rewrite elem_of_first_occurrences in Hx | done]. }
    apply list_elem_of_fmap in Hin as (y & -> & _). apply strip_idemp. }
  assert (kept `sublist_of` lines) as Hsub by apply sieve_sublist.
  assert (Forall (λ x, Str.strip x = x) kept) as Hkept.
  { apply Forall_forall. intros x Hx. rewrite Forall_forall in Hlines.
    apply Hlines. by eapply elem_of_sublist. }
  rewrite (fmap_fixed _ kept) by done.
  set (out := filter (λ s, s ≠ "") kept).
  assert (out `sublist_of` kept) as Hout by apply sublist_filter.
  assert (Str.strip <$> out = out) as ->.
  { apply fmap_fixed, Forall_forall. intros x Hx. rewrite Forall_forall in Hkept.
    apply Hkept. by eapply elem_of_sublist. }
  assert ((if repetitions then first_occurrences out else out) = out) as ->.
  { destruct repetitions; [|done].
    apply first_occurrences_from_NoDup; [|intros x _; apply not_elem_of_nil].
    eapply sublist_NoDup; [|by etrans]. apply NoDup_first_occurrences_from. }
  rewrite sieve_all.
  - assert (Str.strip <$> out = out) as ->.
    { apply fmap_fixed, Forall_forall. intros x Hx. rewrite Forall_forall in Hkept.
      apply Hkept. by eapply elem_of_sublist. }
    apply filter_all, Forall_forall. intros x Hx.
    by apply list_elem_of_filter in Hx as [? _].
  - apply Forall_forall. intros x Hx. eapply sieve_passes.
    eapply elem_of_sublist; [exact Hx | exact Hout].
Qed.

Lemma filter_passes_off pattern (l : list string) :
  filter (λ s, passes false pattern s = true) l = l.
Proof. apply filter_all, Forall_forall. by intros. Qed.

Lemma dropna_remove_emails enabled series :
  dropna (if enabled : bool then _remove_emails series else series)
  = filter (λ s, passes enabled email_pattern s = true) (dropna series).
Proof. apply dropna_replace_regex. Qed.

Lemma dropna_remove_image_names enabled series :
  dropna (if enabled : bool then _remove_image_names series else series)
  = filter (λ s, passes enabled media_image s = true)
      (filter (λ s, passes enabled image_pattern s = true) (dropna series)).
Proof.
  destruct enabled.
  - unfold _remove_image_names. by rewrite !(dropna_replace_regex true).
  - by rewrite !filter_passes_off.
Qed.

Lemma dropna_remove_untranslatables enabled series :
  dropna (if enabled : bool then _remove_untranslatables series else series)
  = filter (λ s, passes enabled untranslatable_pattern3 s = true)
      (filter (λ s, passes enabled untranslatable_pattern2 s = true)
         (filter (λ s, passes enabled untranslatable_pattern1 s = true) (dropna series))).
Proof.
  destruct enabled.
  - unfold _remove_untranslatables. by rewrite !(dropna_replace_regex true).
  - by rewrite !filter_passes_off.
Qed.

Lemma dropna_remove_measurements enabled series :
  dropna (if enabled : bool then _remove_measurements series else series)
  = filter (λ s, passes enabled measurement_pattern s = true) (dropna series).
Proof. apply dropna_replace_regex. Qed.

Lemma dropna_remove_hyperlinks enabled series :
  dropna (if enabled : bool then _remove_hyperlinks series else series)
  = filter (λ s, passes enabled hyperlink_pattern s = true) (dropna series).
Proof. apply dropna_replace_regex. Qed.

(** When the seven look-ups succeed the pipeline computes the normal form. *)
Lemma process_scraped_text_normal_form scraped_text settings b1 b2 b3 b4 b5 b6 b7 :
  settings !! "Remove repetitions" = Some b1 →
  settings !! "Remove source links" = Some b2 →
  settings !! "Remove protected emails" = Some b3 →
  settings !! "Remove image names" = Some b4 →
  settings !! "Remove untranslatables" = Some b5 →
  settings !! "Remove measurements" = Some b6 →
  settings !! "Remove hyperlinks" = Some b7 →
  process_scraped_text scraped_text settings
  = Returns (normal_form b1 (stage_tests b2 b3 b4 b5 b6 b7) scraped_text).
Proof.
  intros H1 H2 H3 H4 H5 H6 H7.
  unfold process_scraped_text, getitem.
  rewrite H1, H2, H3, H4, H5, H6, H7.
  unfold mbind, outcome_bind. f_equal.
  rewrite dropna_replace_value, dropna_str_strip.
  rewrite (dropna_replace_regex true boilerplate_pattern).
  rewrite dropna_remove_hyperlinks, dropna_remove_measurements,
    dropna_remove_untranslatables, dropna_remove_image_names, dropna_remove_emails.
  rewrite (dropna_replace_regex b2), dropna_unique, dropna_str_strip, dropna_Some.
  unfold normal_form, stage_tests, sieve. simpl. by destruct b1.
Qed.

(** A run that returns has found the seven keys. *)
Lemma process_scraped_text_Returns scraped_text settings out :
  process_scraped_text scraped_text settings = Returns out →
  ∃ b1 b2 b3 b4 b5 b6 b7,
    settings !! "Remove repetitions" = Some b1
    ∧ settings !! "Remove source links" = Some b2
    ∧ settings !! "Remove protected emails" = Some b3
    ∧ settings !! "Remove image names" = Some b4
    ∧ settings !! "Remove untranslatables" = Some b5
    ∧ settings !! "Remove measurements" = Some b6
    ∧ settings !! "Remove hyperlinks" = Some b7.
Proof.
  unfold process_scraped_text, getitem, mbind, outcome_bind.
  destruct (settings !! "Remove repetitions") as [b1|]; [|done].
  destruct (settings !! "Remove source links") as [b2|]; [|done].
  destruct (settings !! "Remove protected emails") as [b3|]; [|done].
  destruct (settings !! "Remove image names") as [b4|]; [|done].
  destruct (settings !! "Remove untranslatables") as [b5|]; [|done].
  destruct (settings !! "Remove measurements") as [b6|]; [|done].
  destruct (settings !! "Remove hyperlinks") as [b7|]; [|done].
  intros _. by exists b1, b2, b3, b4, b5, b6, b7.
Qed.

(** C2: the pipeline is idempotent: run on its own output with the same
    settings, it returns that output. *)
Theorem process_scraped_text_idempotent
    (scraped_text : list string) (settings : gmap string bool) (out : list string) :
  process_scraped_text scraped_text settings = Returns out →
  process_scraped_text out settings = Returns out.
Proof.
  intros Hrun.
  destruct (process_scraped_text_Returns _ _ _ Hrun)
    as (b1 & b2 & b3 & b4 & b5 & b6 & b7 & H1 & H2 & H3 & H4 & H5 & H6 & H7).
  rewrite (process_scraped_text_normal_form _ _ _ _ _ _ _ _ _ H1 H2 H3 H4 H5 H6 H7) in Hrun.
  injection Hrun as <-.
  rewrite (process_scraped_text_normal_form _ _ _ _ _ _ _ _ _ H1 H2 H3 H4 H5 H6 H7).
  by rewrite normal_form_idemp.
Qed.

Lemma process_scraped_text_idempotent_witness :
  process_scraped_text ["Hello world"; "Bonjour"] (settings_of option_labels true)
  = Returns ["Hello world"; "Bonjour"].
Proof.
  apply (process_scraped_text_idempotent
           ["  Hello world  "; "Original page: https://a.com/x"; "Distance: 5.2 km";
            "Hello world"; "123"; ""; "Bonjour"]).
  vm_compute. reflexivity.
Defined.

(** C9, as stated, fails: with the seven keys the specification names the
    first look-up raises. *)
Lemma process_scraped_text_spec_keys :
  dom (settings_of spec_keys true) = list_to_set spec_keys
  ∧ process_scraped_text ["Hello"] (settings_of spec_keys true)
    = Raises (KeyError "Remove repetitions").
Proof. split; [|by vm_compute]. apply set_eq. intros k. by vm_compute. Qed.

(** C9 (amended): with exactly the seven checkbox labels as keys every
    look-up succeeds and the pipeline returns. *)
Theorem process_scraped_text_lookups_succeed
    (scraped_text : list string) (settings : gmap string bool) :
  dom settings = list_to_set option_labels →
  ∃ out, process_scraped_text scraped_text settings = Returns out.
Proof.
  intros Hdom.
  assert (∀ k, k ∈ option_labels → is_Some (settings !! k)) as Hkeys.
  { intros k Hk. apply elem_of_dom. rewrite Hdom. by apply elem_of_list_to_set. }
  destruct (Hkeys "Remove repetitions") as [b1 H1]; [set_solver|].
  destruct (Hkeys "Remove source links") as [b2 H2]; [set_solver|].
  destruct (Hkeys "Remove protected emails") as [b3 H3]; [set_solver|].
  destruct (Hkeys "Remove image names") as [b4 H4]; [set_solver|].
  destruct (Hkeys "Remove untranslatables") as [b5 H5]; [set_solver|].
  destruct (Hkeys "Remove measurements") as [b6 H6]; [set_solver|].
  destruct (Hkeys "Remove hyperlinks") as [b7 H7]; [set_solver|].
  eexists. by eapply process_scraped_text_normal_form.
Qed.

Lemma process_scraped_text_lookups_succeed_witness :
  ∃ out, process_scraped_text ["  Hello  "; "12"] (settings_of option_labels true)
         = Returns out.
Proof.
  apply (process_scraped_text_lookups_succeed
           ["  Hello  "; "12"] (settings_of option_labels true)).
  apply set_eq. intros k. by vm_compute.
Defined.

(** ** HTTP backend *)

Section http.
Import link_scraping_requests.
Context (w : web).

Lemma split_lines_neq_nil s : Str.split_lines s ≠ [].
Proof.
  induction s as [|c s IH]; simpl; [done|].
  case_decide; [done|]. by destruct (Str.split_lines s).
Qed.

(** A text without line feed is one line. *)
Lemma split_lines_single s :
  contains line_feed s = false → Str.split_lines s = [s].
Proof.
  induction s as [|c s IH]; simpl; [done|].
  case_decide as Hc; [subst; by rewrite decide_True by done|].
  rewrite decide_False by done. simpl. intros Hs.
  destruct s; simpl in *; [done|]. by rewrite IH.
Qed.

(** What the [try] body does with a matched element of two lines or more. *)
Lemma parse_url_try_element content css_selector get_text first second rest :
  select_one w content css_selector = Element get_text →
  Str.split_lines get_text = first :: second :: rest →
  parse_url_try w (Response content) css_selector
  = Returns (if decide (second = "HOME") then rest else first :: second :: rest).
Proof.
  intros Hsel Hsplit. unfold parse_url_try. rewrite Hsel, Hsplit. simpl.
  by case_decide.
Qed.

(** With a matched element of one line the subscript raises. *)
Lemma parse_url_try_single_line content css_selector get_text :
  select_one w content css_selector = Element get_text →
  contains line_feed get_text = false →
  parse_url_try w (Response content) css_selector = Raises IndexError.
Proof.
  intros Hsel Hone. unfold parse_url_try.
  by rewrite Hsel, (split_lines_single _ Hone).
Qed.

(** *** The thread pool *)

Lemma run_workers_snoc urls css_selector completion i :
  run_workers w urls css_selector (completion ++ [i])
  = resolve w urls css_selector (run_workers w urls css_selector completion) i.
Proof. unfold run_workers. by rewrite foldl_app. Qed.

Lemma resolve_lookup_ne urls css_selector (done : futures) i j :
  i ≠ j → resolve w urls css_selector done j !! i = done !! i.
Proof.
  intros Hij. unfold resolve.
  destruct (urls !! j); [|done].
  destruct (_parse_url _ _ _); [|..|done]; by rewrite lookup_insert_ne.
Qed.

(** Once the worker of task [i] has finished, the future of task [i]
    holds what [_parse_url] did for the [i]-th URL, whatever else finished
    before or after. *)
Lemma run_workers_lookup urls css_selector completion i url :
  i ∈ completion →
  urls !! i = Some url →
  _parse_url w url css_selector ≠ Pending →
  run_workers w urls css_selector completion !! i
  = Some (_parse_url w url css_selector).
Proof.
  intros Hi Hurl Hr.
  induction completion as [|j completion IH] using rev_ind; [by apply elem_of_nil in Hi|].
  rewrite run_workers_snoc. destruct (decide (i = j)) as [<-|Hij].
  - unfold resolve. rewrite Hurl.
    destruct (_parse_url w url css_selector); [..|done]; by rewrite lookup_insert_eq.
  - rewrite resolve_lookup_ne by done. apply IH.
    apply elem_of_app in Hi as [?|Hi]; [done|]. by apply list_elem_of_singleton in Hi.
Qed.

Lemma all_done_true (done : futures) total :
  (∀ i, (i < total)%nat → is_Some (done !! i)) → all_done done total = true.
Proof.
  intros Hall. unfold all_done. apply forallb_forall. intros i Hi.
  apply bool_decide_eq_true, Hall. apply in_seq in Hi. lia.
Qed.

Lemma collect_returns (done : futures) total i blocks text :
  (∀ k lines, blocks !! k = Some lines → done !! (i + k)%nat = Some (Returns lines)) →
  all_done done total = true →
  collect done total i (length blocks) text = Returns (text ++ concat blocks).
Proof.
  intros Hblocks Hall. revert i text Hblocks.
  induction blocks as [|lines blocks IH]; intros i text Hblocks; simpl.
  - by rewrite Hall, app_nil_r.
  - rewrite <-(Nat.add_0_r i) at 1. rewrite (Hblocks 0%nat lines) by done.
    rewrite IH; [by rewrite <-app_assoc|].
    intros k lines' Hk. replace (S i + k)%nat with (i + S k)%nat by lia.
    by apply Hblocks.
Qed.

(** The text of a batch in which every fetch returns. *)
Lemma scrape_urls_requests_returns urls css_selector completion blocks :
  (∀ i, (i < length urls)%nat → i ∈ completion) →
  Forall2 (λ url lines, _parse_url w url css_selector = Returns lines) urls blocks →
  _scrape_urls_requests w urls css_selector completion = Returns (concat blocks).
Proof.
  intros Hcompl Hblocks. unfold _scrape_urls_requests.
  assert (∀ k lines, blocks !! k = Some lines →
            run_workers w urls css_selector completion !! k = Some (Returns lines))
    as Hdone.
  { intros k lines Hk.
    destruct (Forall2_lookup_r _ _ _ _ _ Hblocks Hk) as (url & Hurl & Hret).
    rewrite <-Hret. apply run_workers_lookup; [|done|by rewrite Hret].
    apply Hcompl. by eapply lookup_lt_Some. }
  rewrite (Forall2_length _ _ _ Hblocks) at 2.
  rewrite (collect_returns _ _ _ blocks); [done|done|].
  apply all_done_true. intros i Hi.
  rewrite (Forall2_length _ _ _ Hblocks) in Hi.
  destruct (lookup_lt_is_Some_2 blocks i Hi) as [lines Hlines].
  rewrite (Hdone _ _ Hlines). by eexists.
Qed.
(** *** The pool, interleaved *)

Lemma pool_step_invariant urls css_selector blocks st st' :
  Forall2 (λ url lines, _parse_url w url css_selector = Returns lines) urls blocks →
  pool_invariant w urls css_selector blocks st →
  pool_step w urls css_selector st st' →
  pool_invariant w urls css_selector blocks st'.
Proof.
  intros Hblocks (Hres & Hcol & Hnext) Hstep.
  destruct Hstep as [i url st Hurl Hfree Hr|lines st Hready]; unfold pool_invariant; simpl.
  - split_and!; [|done..]. intros j r.
    destruct (decide (i = j)) as [<-|Hij].
    + rewrite lookup_insert_eq. intros [= <-]. by exists url.
    + rewrite lookup_insert_ne by done. apply Hres.
  - destruct (Hres _ _ Hready) as (url & Hurl & Hret).
    destruct (Forall2_lookup_l _ _ _ _ _ Hblocks Hurl) as (lines' & Hlines & Hret').
    assert (lines' = lines) as -> by congruence.
    split_and!; [done| |by eapply lookup_lt_Some].
    rewrite (take_S_r _ _ _ Hlines), concat_app, Hcol. simpl. by rewrite app_nil_r.
Qed.

Lemma pool_run_invariant urls css_selector blocks :
  Forall2 (λ url lines, _parse_url w url css_selector = Returns lines) urls blocks →
  ∀ st, rtc (pool_step w urls css_selector) pool_start st →
        pool_invariant w urls css_selector blocks st.
Proof.
  intros Hblocks. apply rtc_ind_r.
  - split_and!; [|done|simpl; lia]. intros i r. simpl. by rewrite lookup_empty.
  - intros st1 st2 _ Hstep IH. by eapply pool_step_invariant.
Qed.

(** Whatever the interleaving, once the main thread has taken all the
    results the text is the concatenation in submission order. *)
Lemma pool_run_submission_order urls css_selector blocks st :
  Forall2 (λ url lines, _parse_url w url css_selector = Returns lines) urls blocks →
  rtc (pool_step w urls css_selector) pool_start st →
  next_task st = length urls →
  collected st = concat blocks.
Proof.
  intros Hblocks Hrun Hend.
  destruct (pool_run_invariant _ _ _ Hblocks _ Hrun) as (_ & -> & _).
  rewrite Hend, (Forall2_length _ _ _ Hblocks). by rewrite firstn_all.
Qed.
End http.

(** C8 holds for an element of two lines or more but not for one line: the
    code raises [IndexError] at [element_text[1]]. *)
Theorem parse_url_single_line_raises :
  link_scraping_requests._parse_url (text_web "hello") "example.com" "body > div > pre"
  = Raises IndexError.
Proof. by vm_compute. Qed.


(** C7: in HTTP mode the text of a batch is the concatenation of the lines
    of the URLs in the order of submission, for every order in which the
    fetches complete, and for every interleaving of the workers with the
    main thread that takes the results. *)
Theorem scrape_urls_requests_submission_order
    (w : link_scraping_requests.web) (urls : list string) (css_selector : string)
    (completion : list nat) (blocks : list (list string)) :
  completion ≡ₚ seq 0 (length urls) →
  Forall2 (λ url lines,
             link_scraping_requests._parse_url w url css_selector = Returns lines)
          urls blocks →
  link_scraping_requests._scrape_urls_requests w urls css_selector completion
  = Returns (concat blocks)
  ∧ ∀ st,
      rtc (link_scraping_requests.pool_step w urls css_selector)
          link_scraping_requests.pool_start st →
      link_scraping_requests.next_task st = length urls →
      link_scraping_requests.collected st = concat blocks.
Proof.
  intros Hperm Hblocks. split.
  - apply scrape_urls_requests_returns; [|done].
    intros i Hi. rewrite Hperm. apply elem_of_seq. lia.
  - intros st. by apply pool_run_submission_order.
Qed.

Lemma scrape_urls_requests_submission_order_witness :
  link_scraping_requests._scrape_urls_requests
    (text_web ("a" +:+ line_feed +:+ "b")) ["x.com"; "y.com"; "z.com"] "pre" [2; 0; 1]%nat
  = Returns (concat [["a"; "b"]; ["a"; "b"]; ["a"; "b"]])
  ∧ ∀ st,
      rtc (link_scraping_requests.pool_step
             (text_web ("a" +:+ line_feed +:+ "b")) ["x.com"; "y.com"; "z.com"] "pre")
          link_scraping_requests.pool_start st →
      link_scraping_requests.next_task st = length ["x.com"; "y.com"; "z.com"] →
      link_scraping_requests.collected st
      = concat [["a"; "b"]; ["a"; "b"]; ["a"; "b"]].
Proof.
  apply (scrape_urls_requests_submission_order
           (text_web ("a" +:+ line_feed +:+ "b")) ["x.com"; "y.com"; "z.com"] "pre"
           [2; 0; 1]%nat [["a"; "b"]; ["a"; "b"]; ["a"; "b"]]).
  - exact (Permutation_cons_append [0; 1]%nat 2%nat).
  - repeat constructor.
Defined.

(** ** Browser backend *)

Section browser.
Import link_scraping.

(** While the element is absent the [continue] of the handler skips the
    patterns: the loop can only run on or time out. *)
Lemma poll_loop_absent css_selector ps :
  Forall (absent css_selector) ps →
  poll_loop css_selector ps = Pending
  ∨ poll_loop css_selector ps
    = Returns (None, "Timed out - element not found!").
Proof.
  induction 1 as [|p ps Hp Hps IH]; simpl; [by left|].
  destruct (Qltb _ _); [|by right].
  by destruct Hp as [-> | ->].
Qed.

(** ... and it does time out once the loop condition finds the budget
    spent. *)
Lemma poll_loop_absent_times_out css_selector ps :
  Forall (absent css_selector) ps →
  Exists (λ p, Qltb (elapsed p) TIMEOUT_LIMIT = false) ps →
  poll_loop css_selector ps
  = Returns (None, "Timed out - element not found!").
Proof.
  intros Habs Hlate. induction Hlate as [p ps Hp|p ps Hlate IH]; simpl.
  - by rewrite Hp.
  - apply Forall_cons in Habs as [Hp Hps].
    destruct (Qltb _ _); [|done].
    destruct Hp as [-> | ->]; by apply IH.
Qed.

(** The patterns are tried in order when [find_element] hands back a falsy
    value: the first that is found decides. *)
Lemma first_error_restricted :
  first_error error_massages restricted_page = Some "Restricted Access!".
Proof. by vm_compute. Qed.

Lemma first_error_order :
  first_error error_massages
    ("Sorry, Textise had a problem with that address. " +:+ restricted_page)
  = Some "Invalid URL!".
Proof. by vm_compute. Qed.

Lemma poll_loop_falsy css_selector p ps error_type :
  Qltb (elapsed p) TIMEOUT_LIMIT = true →
  find_element p css_selector = Falsy →
  first_error error_massages (page_source p) = Some error_type →
  poll_loop css_selector (p :: ps) = Returns (None, error_type).
Proof. intros Helapsed Hfind Herr. cbn [poll_loop]. by rewrite Helapsed, Hfind, Herr. Qed.

(** *** The batch *)

Lemma append_inj p s1 s2 : p +:+ s1 = p +:+ s2 → s1 = s2.
Proof.
  induction p as [|c p IH]; [done|]. rewrite !append_String. intros [= ?]. auto.
Qed.

(** What the fetch of a URL returns, when it returns, in terms of the probe
    and of the reading of the text. *)
Lemma browser_fetch_Returns driver n url css_selector r :
  browser_fetch driver n url css_selector = Returns r →
  (∃ element error_type element_text,
     load_and_probe (driver n (LINK_PREFIX +:+ url)) css_selector
     = Returns (Some element, error_type)
     ∧ text element = Text element_text
     ∧ r = (Some (Str.split_lines element_text), error_type))
  ∨ (∃ error_type,
       load_and_probe (driver n (LINK_PREFIX +:+ url)) css_selector
       = Returns (None, error_type)
       ∧ r = (None, error_type)).
Proof.
  unfold browser_fetch, browser_probe, mbind, outcome_bind.
  destruct (load_and_probe _ _) as [[[element|] error_type]|e|]; [| |done..].
  - destruct (text element) as [element_text|e] eqn:Htext; [|done].
    intros [= <-]. left. by exists element, error_type, element_text.
  - intros [= <-]. right. by exists error_type.
Qed.

Lemma scrape_loop_spec driver css_selector URLs :
  ∀ n all_scraped_text (invalid_URLs : gmap string string),
    (∀ k url, URLs !! k = Some url →
       ∃ r, browser_fetch driver (n + k) url css_selector = Returns r) →
    ∃ invalid_URLs' : gmap string string,
      scrape_loop driver n URLs css_selector all_scraped_text invalid_URLs
      = Returns (all_scraped_text
                 ++ concat (imap (λ k url,
                                    page_block url
                                      (browser_fetch driver (n + k) url css_selector))
                                 URLs),
                 invalid_URLs')
      ∧ (∀ key, is_Some (invalid_URLs !! key) → is_Some (invalid_URLs' !! key))
      ∧ (∀ k url error_type,
           URLs !! k = Some url →
           browser_probe driver (n + k) url css_selector = Returns (None, error_type) →
           is_Some (invalid_URLs' !! ("https://" +:+ url)))
      ∧ (∀ key error_type,
           invalid_URLs' !! key = Some error_type →
           invalid_URLs !! key = Some error_type
           ∨ ∃ k url, URLs !! k = Some url ∧ key = "https://" +:+ url
                      ∧ browser_probe driver (n + k) url css_selector
                        = Returns (None, error_type)).
Proof.
  induction URLs as [|url rest IH]; intros n all_text invalid Hret.
  - exists invalid. split_and!; [by rewrite app_nil_r|done| |by left].
    intros k url' e Hk. by rewrite lookup_nil in Hk.
  - destruct (Hret 0%nat url eq_refl) as [r Hfetch].
    assert (∀ k url', rest !! k = Some url' →
              ∃ r, browser_fetch driver (S n + k) url' css_selector = Returns r) as Hrest.
    { intros k url' Hk. replace (S n + k)%nat with (n + S k)%nat by lia. by apply Hret. }
    assert (imap ((λ k url', page_block url'
                               (browser_fetch driver (n + k) url' css_selector)) ∘ S) rest
            = imap (λ k url', page_block url'
                                (browser_fetch driver (S n + k) url' css_selector)) rest)
      as Hshift.
    { apply imap_ext. intros k url' _. simpl.
      by replace (n + S k)%nat with (S n + k)%nat by lia. }
    rewrite imap_cons, Hshift. cbn [concat]. rewrite Hfetch.
    rewrite Nat.add_0_r in Hfetch.
    cbn [scrape_loop].
    destruct (browser_fetch_Returns _ _ _ _ _ Hfetch)
      as [(element & error_type & element_text & Hprobe & Htext & ->)
         |(error_type & Hprobe & ->)];
      rewrite Hprobe; unfold mbind, outcome_bind; cbn [page_block].
    + rewrite Htext.
      destruct (IH (S n) (all_text ++ ["Original page: https://" +:+ url]
                                   ++ Str.split_lines element_text)
                  invalid Hrest)
        as (invalid' & -> & Hkeep & Hrec & Hfrom).
      exists invalid'. split_and!; [by rewrite <-!app_assoc|done|..].
      * intros [|k] url' e Hk Hfail; simpl in Hk.
        -- injection Hk as <-. rewrite Nat.add_0_r in Hfail.
           unfold browser_probe in Hfail. congruence.
        -- eapply (Hrec k); [done|]. by replace (S n + k)%nat with (n + S k)%nat by lia.
      * intros key e Hkey. destruct (Hfrom key e Hkey) as [?|(k & url' & Hk & -> & Hfail)];
          [by left|right].
        exists (S k), url'. split_and!; [done|done|].
        by replace (n + S k)%nat with (S n + k)%nat by lia.
    + destruct (IH (S n) all_text (<["https://" +:+ url := error_type]> invalid) Hrest)
        as (invalid' & -> & Hkeep & Hrec & Hfrom).
      exists invalid'. split_and!; [done|..].
      * intros key Hkey. apply Hkeep.
        destruct (decide ("https://" +:+ url = key)) as [<-|Hne].
        -- rewrite lookup_insert_eq. by eexists.
        -- by rewrite lookup_insert_ne.
      * intros [|k] url' e Hk Hfail; simpl in Hk.
        -- injection Hk as <-. apply Hkeep. rewrite lookup_insert_eq. by eexists.
        -- eapply (Hrec k); [done|]. by replace (S n + k)%nat with (n + S k)%nat by lia.
      * intros key e Hkey.
        destruct (Hfrom key e Hkey) as [Hins|(k & url' & Hk & -> & Hfail)].
        -- destruct (decide ("https://" +:+ url = key)) as [<-|Hne].
           ++ rewrite lookup_insert_eq in Hins. injection Hins as <-.
              right. exists 0%nat, url. split_and!; [done|done|].
              by rewrite Nat.add_0_r.
           ++ rewrite lookup_insert_ne in Hins by done. by left.
        -- right. exists (S k), url'. split_and!; [done|done|].
           by replace (n + S k)%nat with (S n + k)%nat by lia.
Qed.


(** An exception that leaves [driver.get], the probe or [element.text] is
    caught nowhere: it leaves the loop, and the batch returns nothing. *)
Lemma scrape_loop_raises driver css_selector URLs :
  ∀ n all_scraped_text (invalid_URLs : gmap string string) k url e,
    URLs !! k = Some url →
    browser_fetch driver (n + k) url css_selector = Raises e →
    (∀ j url', (j < k)%nat → URLs !! j = Some url' →
       ∃ r, browser_fetch driver (n + j) url' css_selector = Returns r) →
    scrape_loop driver n URLs css_selector all_scraped_text invalid_URLs = Raises e.
Proof.
  induction URLs as [|url0 rest IH]; intros n all_text invalid k url e Hk Hraise Hbefore;
    [by rewrite lookup_nil in Hk|].
  cbn [scrape_loop]. destruct k as [|k]; simpl in Hk.
  - injection Hk as ->. rewrite Nat.add_0_r in Hraise.
    unfold browser_fetch, browser_probe, mbind, outcome_bind in *.
    destruct (load_and_probe _ _) as [[[element|] error_type]|e'|]; [| |congruence|done].
    + destruct (text element); [done|congruence].
    + done.
  - destruct (Hbefore 0%nat url0 ltac:(lia) eq_refl) as [r Hfetch].
    rewrite Nat.add_0_r in Hfetch.
    assert (∀ acc invalid',
              scrape_loop driver (S n) rest css_selector acc invalid' = Raises e) as Hrest.
    { intros acc invalid'. apply (IH (S n) acc invalid' k url e Hk).
      - by replace (S n + k)%nat with (n + S k)%nat by lia.
      - intros j url' Hj Hurl'. replace (S n + j)%nat with (n + S j)%nat by lia.
        apply Hbefore; [lia|done]. }
    destruct (browser_fetch_Returns _ _ _ _ _ Hfetch)
      as [(element & error_type & element_text & Hprobe & Htext & ->)
         |(error_type & Hprobe & ->)];
      rewrite Hprobe; unfold mbind, outcome_bind.
    + rewrite Htext. apply Hrest.
    + apply Hrest.
Qed.
End browser.

(** C1 fails on the code: on a page that shows the restricted-access message
    and lacks the element, every poll raises [NoSuchElementException], the
    handler's [continue] skips the patterns, and the fetch times out. *)
Theorem is_element_present_restricted_times_out :
  link_scraping.first_error link_scraping.error_massages restricted_page
  = Some "Restricted Access!"
  ∧ link_scraping._is_element_present restricted_load "body > div > pre"
    = Returns (None, "Timed out - element not found!").
Proof. by vm_compute. Qed.




(** What the sample batch of the browser returns: the failed URL is in the
    [dict], the lines of the URL after it are in the text. *)
Example browser_batch_goes_on :
  browser_batch restricted_then_echo 0 ["a.com"; "b.com"] "pre"
  = Returns (TextAndInvalid
               ["Original page: https://b.com"; "pre"]
               {[ "https://a.com" := "Timed out - element not found!" ]}).
Proof. by vm_compute. Qed.

(** An exception of [driver.get] on the first URL ends the batch: nothing is
    returned for the second. *)
Example browser_batch_get_raises :
  browser_batch (λ n _, match n with O => unreachable_load | S _ => echo_load end)
    0 ["a.com"; "b.com"] "pre"
  = Raises (OtherException "WebDriverException").
Proof. by vm_compute. Qed.

(** ** SelectorVerifier *)

Lemma displays_app shown1 shown2 :
  displays (shown1 ++ shown2) = displays shown1 ++ displays shown2.
Proof. apply omap_app. Qed.

Section http_verifier.
Import link_scraping_requests.
Context (w : web) (url : string).

(** One round of the loop. *)
Lemma verify_loop_unfold css_selector css_inputs confirms :
  verify_loop w url css_selector css_inputs confirms
  = let next confirms shown :=
      match css_inputs with
      | [] => (shown, Pending)
      | css_input :: css_inputs =>
          if negb (Str.truthy css_input) then (shown, Raises SystemExit)
          else let '(shown', r) := verify_loop w url css_input css_inputs confirms in
               (shown ++ shown', r)
      end in
    match probe w url css_selector with
    | Pending => ([], Pending)
    | Raises SelectorSyntaxError =>
        next confirms [InfoDialog "Error occurred!" "Please try another CSS Selector"]
    | Raises e => ([], Raises e)
    | Returns [] =>
        next confirms [InfoDialog "No text found!" "Please try another CSS Selector"]
    | Returns text =>
        match confirms with
        | [] => ([ScrapedTextDisplay text], Pending)
        | true :: _ => ([ScrapedTextDisplay text], Returns css_selector)
        | false :: confirms => next confirms [ScrapedTextDisplay text]
        end
    end.
Proof. by destruct css_inputs. Qed.

(** The prompts of a run are the prompts of its candidates, one after the
    other, as far as the run gets. *)
Lemma http_prompt_cons css_selector rest :
  omap (http_prompt w url) (css_selector :: rest)
  = match probe w url css_selector with
    | Returns (line :: lines) => (line :: lines) :: omap (http_prompt w url) rest
    | _ => omap (http_prompt w url) rest
    end.
Proof.
  csimpl. unfold http_prompt at 1.
  by destruct (probe w url css_selector) as [[|line lines]|e|].
Qed.

(** Asking for the next candidate. *)
Lemma next_displays css_inputs confirms shown (candidates : list (list string)) :
  (∀ css_input rest, css_inputs = css_input :: rest →
     displays (verify_loop w url css_input rest confirms).1 `prefix_of` candidates) →
  displays
    (match css_inputs with
     | [] => (shown, Pending)
     | css_input :: css_inputs =>
         if negb (Str.truthy css_input) then (shown, Raises SystemExit)
         else let '(shown', r) := verify_loop w url css_input css_inputs confirms in
              (shown ++ shown', r)
     end).1
  `prefix_of` displays shown ++ candidates.
Proof.
  intros IH. destruct css_inputs as [|css_input rest]; simpl.
  - by apply prefix_app_r.
  - destruct (negb (Str.truthy css_input)); simpl; [by apply prefix_app_r|].
    specialize (IH css_input rest eq_refl).
    destruct (verify_loop w url css_input rest confirms) as [shown' r]. simpl in *.
    rewrite displays_app. by apply prefix_app.
Qed.

(** The prompts of a run are the prompts of its candidates, one after the
    other, as far as the run gets. *)
Lemma verify_loop_displays css_inputs :
  ∀ css_selector confirms,
    displays (verify_loop w url css_selector css_inputs confirms).1
    `prefix_of` omap (http_prompt w url) (css_selector :: css_inputs).
Proof.
  induction css_inputs as [|css_input css_inputs IH]; intros css_selector confirms;
    rewrite verify_loop_unfold, http_prompt_cons; cbn zeta.
  - destruct (probe w url css_selector) as [[|line lines]|e|]; [| |destruct e|];
      try destruct confirms as [|[|] confirms]; simpl; try apply prefix_nil; done.
  - destruct (probe w url css_selector) as [[|line lines]|e|] eqn:Hprobe.
    + refine (next_displays (css_input :: css_inputs) confirms [InfoDialog _ _] _ _). intros ? ? [= <- <-]. apply IH.
    + destruct confirms as [|[|] confirms].
      * apply prefix_cons, prefix_nil.
      * apply prefix_cons, prefix_nil.
      * refine (next_displays (css_input :: css_inputs) confirms [ScrapedTextDisplay _] _ _). intros ? ? [= <- <-]. apply IH.
    + destruct e; try apply prefix_nil.
      refine (next_displays (css_input :: css_inputs) confirms [InfoDialog _ _] _ _). intros ? ? [= <- <-]. apply IH.
    + apply prefix_nil.
Qed.
End http_verifier.

Lemma http_prompt_Some (w : link_scraping_requests.web) url css_selector text :
  http_prompt w url css_selector = Some text →
  ∃ lines, link_scraping_requests._parse_url w url css_selector = Returns lines
           ∧ text = filter (λ line, Str.truthy line = true) lines
           ∧ text ≠ [].
Proof.
  unfold http_prompt, link_scraping_requests.probe.
  destruct (link_scraping_requests._parse_url w url css_selector) as [lines|e|];
    [|done..].
  unfold mbind, outcome_bind.
  destruct (filter _ lines) as [|line rest] eqn:Hf; [done|].
  intros [= <-]. exists lines. by rewrite Hf.
Qed.

Section browser_verifier.
Import link_scraping.
Context (driver : WebDriver) (url : string).

Lemma running_suffix acc blocks :
  Forall2 (λ block prompt, block `suffix_of` prompt) blocks (running acc blocks).
Proof.
  revert acc. induction blocks as [|block blocks IH]; intros acc; simpl; constructor.
  - by apply suffix_app_r.
  - apply IH.
Qed.

Lemma displays_display text shown :
  displays (ScrapedTextDisplay text :: shown) = text :: displays shown.
Proof. done. Qed.

Lemma displays_info (error_type : string) shown :
  displays ((if Str.truthy error_type
             then [InfoDialog error_type "Please try another CSS Selector"]
             else []) ++ shown)
  = displays shown.
Proof. by destruct (Str.truthy error_type). Qed.

(** The prompts of a run of the browser verifier: the list [scraped_text]
    after the block of each candidate that found an element, as far as the
    run gets. *)
Lemma verify_loop_displays_browser css_inputs :
  ∀ n scraped_text confirms,
    ∃ blocks,
      blocks `prefix_of` browser_blocks driver n url css_inputs
      ∧ displays (verify_loop driver n url scraped_text css_inputs confirms).1
        = running scraped_text blocks.
Proof.
  induction css_inputs as [|css_selector css_inputs IH]; intros n scraped_text confirms.
  { exists []. by split. }
  cbn [verify_loop browser_blocks]. unfold browser_probe.
  destruct (negb (Str.truthy css_selector)); [exists []; split; [apply prefix_nil|done]|].
  destruct (load_and_probe _ css_selector) as [[[element|] error_type]|e|];
    [| |exists []; split; [apply prefix_nil|done]..].
  - destruct (text element) as [element_text|e];
      [|exists []; split; [apply prefix_nil|done]].
    destruct confirms as [|[|] confirms].
    + exists [browser_block url element_text]. split; [by apply prefix_app_r|done].
    + exists [browser_block url element_text]. split; [by apply prefix_app_r|done].
    + destruct (IH (S n) (scraped_text ++ browser_block url element_text) confirms)
        as (blocks & Hpre & Hdisp).
      exists (browser_block url element_text :: blocks). split; [by apply prefix_cons|].
      change (scraped_text ++ [("Original link: https://" +:+ url) +:+ line_feed]
                ++ Str.split_lines element_text)
        with (scraped_text ++ browser_block url element_text).
      destruct (verify_loop driver (S n) url _ css_inputs confirms) as [shown r].
      cbn [fst] in *. rewrite displays_display, displays_info, Hdisp. done.
  - destruct (IH (S n) scraped_text confirms) as (blocks & Hpre & Hdisp).
    exists blocks. split; [done|].
    destruct (verify_loop driver (S n) url _ css_inputs confirms) as [shown r].
    cbn [fst] in *. by rewrite displays_info.
Qed.
End browser_verifier.

(** In the browser verifier the text of a rejected candidate stays in the
    list: the second prompt repeats the lines of the first. *)
Example verify_css_selector_keeps_rejected_text :
  displays (link_scraping._verify_css_selector (λ _ _, echo_load) 0 "a.com"
              {| inputs := ["h1"; "h2"]; answers := [false; true] |}).1
  = [ [source_link_line "a.com"; "h1"];
      [source_link_line "a.com"; "h1"; source_link_line "a.com"; "h2"] ].
Proof. by vm_compute. Qed.

(** C10, as stated, fails: the prompt of the HTTP verifier holds the lines
    of the probe without a source-link line. *)
Lemma verify_css_selector_no_source_link :
  displays (link_scraping_requests._verify_css_selector
              (text_web ("Hello" +:+ line_feed +:+ "World")) "a.com"
              link_scraping_requests.default_css_selector
              {| inputs := []; answers := [true] |}).1
  = [["Hello"; "World"]]
  ∧ ¬ ∃ lines, ["Hello"; "World"] = source_link_line "a.com" :: lines.
Proof. split; [by vm_compute|]. by intros (lines & [= ? ?]). Qed.

(** C10 (amended): the prompts of the HTTP verifier are, one after the
    other, the non-empty lines of the probe of each candidate; every prompt
    of the browser verifier ends with the source-link line and the lines of
    the probe of the current candidate, and the first prompt is nothing but
    these. *)
Theorem verifier_prompts
    (w : link_scraping_requests.web) (driver : link_scraping.WebDriver) (n : nat)
    (url css_selector : string) (u : user) :
  displays (link_scraping_requests._verify_css_selector w url css_selector u).1
    `prefix_of` omap (http_prompt w url) (css_selector :: inputs u)
  ∧ ∃ blocks,
      blocks `prefix_of` browser_blocks driver n url (inputs u)
      ∧ Forall2 (λ block prompt, block `suffix_of` prompt) blocks
          (displays (link_scraping._verify_css_selector driver n url u).1)
      ∧ head (displays (link_scraping._verify_css_selector driver n url u).1)
        = head blocks.
Proof.
  split; [apply verify_loop_displays|].
  unfold link_scraping._verify_css_selector.
  destruct (verify_loop_displays_browser driver url (inputs u) n [] (answers u))
    as (blocks & Hpre & ->).
  exists blocks. split_and!; [done|apply running_suffix|by destruct blocks].
Qed.

(** The exception of a single-line element leaves [_parse_url] and ends the
    HTTP batch when the main thread takes the result of that task. *)
Example scrape_urls_requests_single_line_aborts :
  link_scraping_requests._scrape_urls_requests (text_web "hello") ["a.com"] "pre" [0%nat]
  = Raises IndexError.
Proof. by vm_compute. Qed.

(** * Further properties of the code *)

(** ** LinkNormalizer: case, duplicates, dropped links *)

Lemma lower_char_idemp c : Str.lower_char (Str.lower_char c) = Str.lower_char c.
Proof. destruct c as [[] [] [] [] [] [] [] []]; reflexivity. Qed.

Lemma lower_idemp s : Str.lower (Str.lower s) = Str.lower s.
Proof. induction s as [|c s IH]; simpl; [done|]. by rewrite lower_char_idemp, IH. Qed.

Lemma lower_append p s : Str.lower (p +:+ s) = Str.lower p +:+ Str.lower s.
Proof. induction p as [|c p IH]; [done|]. rewrite append_String. simpl. by rewrite IH. Qed.

Lemma recognized_prefix_lower p : p ∈ recognized_prefixes → Str.lower p = p.
Proof.
  unfold recognized_prefixes. rewrite !elem_of_cons, elem_of_nil.
  intros [->|[->|[->|[]]]]; reflexivity.
Qed.

Lemma fmap_lower_idemp (links : list string) :
  Str.lower <$> (Str.lower <$> links) = Str.lower <$> links.
Proof.
  rewrite <-list_fmap_compose. apply list_fmap_ext. intros _ s _. apply lower_idemp.
Qed.

(** X1: The normalizer does not see the case of its input. *)
Theorem preprocess_links_case_insensitive (links : list string) :
  _preprocess_links (Str.lower <$> links) = _preprocess_links links.
Proof. by rewrite !preprocess_links_omap, fmap_lower_idemp. Qed.

(** X2: Every entry of the output is in lower case. *)
Theorem preprocess_links_lower_case (links : list string) (out : string) :
  out ∈ _preprocess_links links → Str.lower out = out.
Proof.
  rewrite preprocess_links_omap, list_elem_of_omap.
  intros (src & Hsrc & Hstep). unfold fromkeys in Hsrc.
  rewrite elem_of_first_occurrences in Hsrc.
  apply list_elem_of_fmap in Hsrc as (raw & -> & _).
  apply preprocess_step_Some in Hstep as (p & Hp & Heq).
  pose proof (f_equal Str.lower Heq) as Hlow.
  rewrite lower_idemp, lower_append, (recognized_prefix_lower _ Hp), Heq in Hlow.
  symmetry. by eapply append_inj.
Qed.

Lemma preprocess_links_lower_case_witness : Str.lower "example.com/a" = "example.com/a".
Proof.
  apply (preprocess_links_lower_case ["HTTP://Example.COM/a"] "example.com/a").
  vm_compute. by left.
Defined.

Section first_occurrences_app.
Context {A : Type} `{EqDecision A}.
Implicit Types (l seen : list A).

(** Only the values in [seen] count, not their order or number. *)
Lemma first_occurrences_from_ext seen1 seen2 l :
  (∀ x, x ∈ seen1 ↔ x ∈ seen2) →
  first_occurrences_from seen1 l = first_occurrences_from seen2 l.
Proof.
  revert seen1 seen2. induction l as [|y l IH]; intros seen1 seen2 Hseen; simpl; [done|].
  destruct (decide (y ∈ seen1)) as [H1|H1], (decide (y ∈ seen2)) as [H2|H2];
    try (by apply Hseen in H1); try (by apply Hseen in H2).
  - by apply IH.
  - f_equal. apply IH. intros x. rewrite !elem_of_cons. by rewrite Hseen.
Qed.

Lemma first_occurrences_from_app seen l1 l2 :
  first_occurrences_from seen (l1 ++ l2)
  = first_occurrences_from seen l1 ++ first_occurrences_from (l1 ++ seen) l2.
Proof.
  revert seen. induction l1 as [|y l1 IH]; intros seen; simpl; [done|].
  case_decide as Hy.
  - rewrite IH. f_equal. apply first_occurrences_from_ext. set_solver.
  - rewrite IH. simpl. do 2 f_equal. apply first_occurrences_from_ext. set_solver.
Qed.

Lemma first_occurrences_from_seen seen l :
  (∀ x, x ∈ l → x ∈ seen) → first_occurrences_from seen l = [].
Proof.
  revert seen. induction l as [|y l IH]; intros seen Hseen; simpl; [done|].
  rewrite decide_True by (apply Hseen; by left).
  apply IH. intros x Hx. apply Hseen. by right.
Qed.
End first_occurrences_app.

(** X3: Links that are read later do not change what the earlier links gave:
    the output for a list begins with the output for each of its prefixes. *)
Theorem preprocess_links_app (links more : list string) :
  _preprocess_links links `prefix_of` _preprocess_links (links ++ more).
Proof.
  rewrite !preprocess_links_omap, fmap_app. unfold fromkeys, first_occurrences.
  rewrite first_occurrences_from_app, omap_app. by apply prefix_app_r.
Qed.

(** X4: A link that only repeats an earlier link, whatever its case, adds
    nothing. *)
Theorem preprocess_links_repeated (links : list string) (link : string) :
  Str.lower link ∈ Str.lower <$> links →
  _preprocess_links (links ++ [link]) = _preprocess_links links.
Proof.
  intros Hin.
  rewrite !preprocess_links_omap, fmap_app. unfold fromkeys, first_occurrences.
  rewrite first_occurrences_from_app, omap_app.
  rewrite (first_occurrences_from_seen _ (Str.lower <$> [link])); [by rewrite app_nil_r|].
  intros x Hx. apply list_elem_of_singleton in Hx as ->. rewrite app_nil_r. done.
Qed.

Lemma preprocess_links_repeated_witness :
  _preprocess_links (["https://a.com"; "www.b.org"] ++ ["HTTPS://A.COM"])
  = _preprocess_links ["https://a.com"; "www.b.org"].
Proof.
  apply (preprocess_links_repeated ["https://a.com"; "www.b.org"] "HTTPS://A.COM").
  vm_compute. by left.
Defined.

(** X5: What goes through: an entry is in the output exactly when it is what
    the prefix chain leaves of some lower-cased input link that does not
    end in [.pdf], [rss=1] or [atom=1]. *)
Theorem preprocess_links_elem_of (links : list string) (out : string) :
  out ∈ _preprocess_links links
  ↔ ∃ raw, raw ∈ links
           ∧ Str.endswith_any [".pdf"; "rss=1"; "atom=1"] (Str.lower raw) = false
           ∧ strip_prefix (Str.lower raw) = Some out.
Proof.
  rewrite preprocess_links_omap, list_elem_of_omap. unfold fromkeys. split.
  - intros (src & Hsrc & Hstep). rewrite elem_of_first_occurrences in Hsrc.
    apply list_elem_of_fmap in Hsrc as (raw & -> & Hraw).
    exists raw. unfold preprocess_step in Hstep.
    by destruct (Str.endswith_any _ _).
  - intros (raw & Hraw & Hend & Hstrip). exists (Str.lower raw). split.
    + rewrite elem_of_first_occurrences. by apply list_elem_of_fmap_2.
    + unfold preprocess_step. by rewrite Hend.
Qed.

(** A query marker that is not at the end of the link does not drop it. *)
Example preprocess_links_marker_inside :
  _preprocess_links ["http://a.com/?rss=1&page=2"; "http://a.com/?rss=1"]
  = ["a.com/?rss=1&page=2"].
Proof. by vm_compute. Qed.

(** ** TextNormalizer: what the output is made of *)

Lemma normal_form_sieve repetitions tests scraped_text :
  normal_form repetitions tests scraped_text
  = filter (λ s, s ≠ "")
      (sieve tests (if repetitions then first_occurrences (Str.strip <$> scraped_text)
                    else Str.strip <$> scraped_text)).
Proof.
  unfold normal_form. f_equal. apply fmap_fixed, Forall_forall. intros x Hx.
  eapply elem_of_sublist in Hx; [|apply sieve_sublist].
  assert (x ∈ Str.strip <$> scraped_text) as Hin.
  { destruct repetitions; [by rewrite elem_of_first_occurrences in Hx | done]. }
  apply list_elem_of_fmap in Hin as (y & -> & _). apply strip_idemp.
Qed.

Lemma normal_form_sublist repetitions tests scraped_text :
  normal_form repetitions tests scraped_text `sublist_of` Str.strip <$> scraped_text.
Proof.
  rewrite normal_form_sieve.
  etrans; [apply sublist_filter|]. etrans; [apply sieve_sublist|].
  destruct repetitions; [apply first_occurrences_from_sublist | done].
Qed.

Lemma normal_form_passes repetitions tests scraped_text s :
  s ∈ normal_form repetitions tests scraped_text →
  s ≠ "" ∧ Forall (λ test, test s = true) tests.
Proof.
  rewrite normal_form_sieve. intros [Hne Hs]%list_elem_of_filter.
  split; [done|]. by eapply sieve_passes.
Qed.

(** A run that returns used the normal form of its settings. *)
Lemma process_scraped_text_Returns_normal_form scraped_text settings out :
  process_scraped_text scraped_text settings = Returns out →
  ∃ b1 b2 b3 b4 b5 b6 b7,
    settings !! "Remove repetitions" = Some b1
    ∧ settings !! "Remove source links" = Some b2
    ∧ settings !! "Remove protected emails" = Some b3
    ∧ settings !! "Remove image names" = Some b4
    ∧ settings !! "Remove untranslatables" = Some b5
    ∧ settings !! "Remove measurements" = Some b6
    ∧ settings !! "Remove hyperlinks" = Some b7
    ∧ out = normal_form b1 (stage_tests b2 b3 b4 b5 b6 b7) scraped_text.
Proof.
  intros Hrun.
  destruct (process_scraped_text_Returns _ _ _ Hrun)
    as (b1 & b2 & b3 & b4 & b5 & b6 & b7 & H1 & H2 & H3 & H4 & H5 & H6 & H7).
  exists b1, b2, b3, b4, b5, b6, b7. split_and!; try done.
  rewrite (process_scraped_text_normal_form _ _ _ _ _ _ _ _ _ H1 H2 H3 H4 H5 H6 H7) in Hrun.
  by injection Hrun.
Qed.

(** X6: Every line of the output is non-empty and has no white space at either
    end. *)
Theorem process_scraped_text_lines_trimmed
    (scraped_text : list string) (settings : gmap string bool) (out : list string) :
  process_scraped_text scraped_text settings = Returns out →
  Forall (λ line, line ≠ "" ∧ Str.strip line = line) out.
Proof.
  intros Hrun.
  destruct (process_scraped_text_Returns_normal_form _ _ _ Hrun)
    as (b1 & b2 & b3 & b4 & b5 & b6 & b7 & _ & _ & _ & _ & _ & _ & _ & ->).
  apply Forall_forall. intros line Hline. split.
  - by apply normal_form_passes in Hline as [? _].
  - eapply elem_of_sublist in Hline; [|apply normal_form_sublist].
    apply list_elem_of_fmap in Hline as (y & -> & _). apply strip_idemp.
Qed.

Lemma process_scraped_text_lines_trimmed_witness :
  Forall (λ line, line ≠ "" ∧ Str.strip line = line) ["Hello world"; "Bonjour"].
Proof.
  apply (process_scraped_text_lines_trimmed
           ["  Hello world  "; ""; "Bonjour "] (settings_of option_labels true)).
  vm_compute. reflexivity.
Defined.

(** X7: The output takes its lines from the stripped input, in the order of the
    input: the pipeline invents no line and moves none. *)
Theorem process_scraped_text_sublist
    (scraped_text : list string) (settings : gmap string bool) (out : list string) :
  process_scraped_text scraped_text settings = Returns out →
  out `sublist_of` Str.strip <$> scraped_text.
Proof.
  intros Hrun.
  destruct (process_scraped_text_Returns_normal_form _ _ _ Hrun)
    as (b1 & b2 & b3 & b4 & b5 & b6 & b7 & _ & _ & _ & _ & _ & _ & _ & ->).
  apply normal_form_sublist.
Qed.

Lemma process_scraped_text_sublist_witness :
  ["Hello world"; "Bonjour"] `sublist_of` Str.strip <$> ["  Hello world  "; ""; "Bonjour "].
Proof.
  apply (process_scraped_text_sublist
           ["  Hello world  "; ""; "Bonjour "] (settings_of option_labels true)).
  vm_compute. reflexivity.
Defined.

(** X8: With "Remove repetitions" on, no line occurs twice in the output. *)
Theorem process_scraped_text_no_repetitions
    (scraped_text : list string) (settings : gmap string bool) (out : list string) :
  settings !! "Remove repetitions" = Some true →
  process_scraped_text scraped_text settings = Returns out →
  NoDup out.
Proof.
  intros Hrep Hrun.
  destruct (process_scraped_text_Returns_normal_form _ _ _ Hrun)
    as (b1 & b2 & b3 & b4 & b5 & b6 & b7 & H1 & _ & _ & _ & _ & _ & _ & ->).
  assert (b1 = true) as -> by congruence.
  rewrite normal_form_sieve.
  eapply sublist_NoDup; [|etrans; [apply sublist_filter | apply sieve_sublist]].
  apply NoDup_first_occurrences_from.
Qed.

Lemma process_scraped_text_no_repetitions_witness : NoDup ["a b"; "c d"].
Proof.
  apply (process_scraped_text_no_repetitions
           ["a b"; "c d"; " a b"; "c d "] (settings_of option_labels true)).
  - vm_compute. reflexivity.
  - vm_compute. reflexivity.
Defined.

(** X9: With every filter off the pipeline strips the lines and drops the
    empty ones and those in which the boilerplate pattern is found; nothing
    else. *)
Theorem process_scraped_text_filters_off
    (scraped_text : list string) (settings : gmap string bool) :
  (∀ key, key ∈ option_labels → settings !! key = Some false) →
  process_scraped_text scraped_text settings
  = Returns (filter (λ line, line ≠ "")
               (filter (λ line, Re.search boilerplate_pattern line = false)
                  (Str.strip <$> scraped_text))).
Proof.
  intros Hoff.
  rewrite (process_scraped_text_normal_form _ _ false false false false false false false)
    by (apply Hoff; set_solver).
  rewrite normal_form_sieve. unfold stage_tests, sieve. simpl.
  rewrite !filter_passes_off. do 2 f_equal.
  apply list_filter_iff. intros line. unfold passes. simpl.
  by destruct (Re.search boilerplate_pattern line).
Qed.

Lemma process_scraped_text_filters_off_witness :
  process_scraped_text ["  12 km "; ""; "www.a.com"] (settings_of option_labels false)
  = Returns (filter (λ line, line ≠ "")
               (filter (λ line, Re.search boilerplate_pattern line = false)
                  (Str.strip <$> ["  12 km "; ""; "www.a.com"]))).
Proof.
  apply (process_scraped_text_filters_off
           ["  12 km "; ""; "www.a.com"] (settings_of option_labels false)).
  intros key Hkey. unfold option_labels in Hkey.
  repeat (apply elem_of_cons in Hkey as [->|Hkey]; [by vm_compute|]).
  by apply elem_of_nil in Hkey.
Defined.

(** ** TextNormalizer: the look-ups *)

Lemma first_missing_key_raises
    (scraped_text : list string) (settings : gmap string bool) (i : nat) (key : string) :
  list_find (λ k, settings !! k = None) lookup_order = Some (i, key) →
  process_scraped_text scraped_text settings = Raises (KeyError key).
Proof.
  unfold process_scraped_text, getitem, lookup_order, mbind, outcome_bind.
  cbn [list_find].
  repeat (match goal with
          | |- context [decide (?m !! ?k = None)] =>
              destruct (m !! k) eqn:?; [rewrite decide_False by done
                                       |rewrite decide_True by done]
          end; cbn [fmap option_fmap option_map prod_map fst snd]; try by intros [= <- <-]).
Qed.

(** X10: The only way the pipeline fails is the [KeyError] of the first key, in
    the order of the look-ups, that the settings lack; the text plays no
    part in it. *)
Theorem process_scraped_text_first_missing_key
    (scraped_text : list string) (settings : gmap string bool) (i : nat) (key : string) :
  list_find (λ k, settings !! k = None) lookup_order = Some (i, key) →
  process_scraped_text scraped_text settings = Raises (KeyError key).
Proof. apply first_missing_key_raises. Qed.

Lemma process_scraped_text_first_missing_key_witness :
  process_scraped_text ["Hello"]
    (delete "Remove image names" (settings_of option_labels true))
  = Raises (KeyError "Remove image names").
Proof.
  apply (process_scraped_text_first_missing_key
           ["Hello"] (delete "Remove image names" (settings_of option_labels true)) 3%nat).
  vm_compute. reflexivity.
Defined.

(** ** TextNormalizer: what the patterns remove *)

Lemma matches_Star r prev s k :
  Re.matches (Re.Star r) prev s k = star_loop r k (String.length s) prev s.
Proof. reflexivity. Qed.

Lemma matches_lit p prev s k :
  Re.matches (Re.lit p) prev (p +:+ s) k = k (last_char prev p) s.
Proof.
  revert prev. induction p as [|c p IH]; intros prev; [done|].
  rewrite append_String. cbn [Re.lit Re.matches Re.ch last_char].
  rewrite bool_decide_eq_true_2 by done. apply IH.
Qed.

Lemma search_matches r s :
  Re.matches r None s (λ _ _, true) = true → Re.search r s = true.
Proof. intros Hm. unfold Re.search. destruct s; simpl; by rewrite Hm. Qed.

Lemma search_from_Alt_r r1 r2 prev s :
  Re.search_from r2 prev s = true → Re.search_from (Re.Alt r1 r2) prev s = true.
Proof.
  revert prev. induction s as [|c s IH]; intros prev; cbn [Re.search_from Re.matches].
  - destruct (Re.matches r2 prev "" _); [|done].
    by destruct (Re.matches r1 prev "" _).
  - destruct (Re.matches r1 prev (String c s) _); [done|].
    destruct (Re.matches r2 prev (String c s) _); [done|]. apply IH.
Qed.

(** X12: The second pass of [_remove_image_names] never finds anything: its
    pattern is one of the alternatives of the pattern of the first pass. *)
Theorem remove_image_names_one_pass (series : Series) :
  _remove_image_names series = replace_regex image_pattern series.
Proof.
  unfold _remove_image_names, replace_regex.
  rewrite <-list_fmap_compose. apply list_fmap_ext. intros _ [s|] _; simpl; [|done].
  destruct (Re.search image_pattern s) eqn:Himg; [done|].
  destruct (Re.search media_image s) eqn:Hmedia; [|done].
  unfold Re.search, image_pattern in *.
  by rewrite (search_from_Alt_r _ _ _ _ Hmedia) in Himg.
Qed.

Lemma star_no_space (u : string) :
  ∀ fuel prev,
    no_space u = true →
    (String.length u ≤ fuel)%nat →
    star_loop Re.S_ (λ prev s, Re.matches Re.Eol prev s (λ _ _, true)) fuel prev u = true.
Proof.
  induction u as [|c u IH]; intros fuel prev Hu Hfuel.
  - by destruct fuel.
  - simpl in Hu. destruct (Str.isspace c) eqn:Hc; [done|].
    destruct fuel as [|fuel]; [simpl in Hfuel; lia|].
    cbn [star_loop].
    destruct (Re.matches Re.Eol prev (String c u) _); [done|].
    cbn [Re.matches Re.S_]. rewrite Hc. cbn [negb].
    replace (String.length u <? String.length (String c u)) with true
      by (symmetry; apply Nat.ltb_lt; simpl; lia).
    apply IH; [done|]. simpl in Hfuel. lia.
Qed.

(** The pattern of the source links finds the line that [_scrape_urls] puts
    before the text of a page. *)
Lemma search_source_link url :
  url ≠ "" → no_space url = true →
  Re.search source_link_pattern ("Original page: https://" +:+ url) = true.
Proof.
  intros Hne Hurl. apply search_matches.
  change ("Original page: https://" +:+ url)
    with ("Original page: " +:+ ("http" +:+ String "s" ("://" +:+ url))).
  unfold source_link_pattern, url_head.
  cbn [Re.matches]. rewrite matches_lit. cbn [Re.matches]. rewrite matches_lit.
  cbn [Re.matches Re.Opt Re.ch]. rewrite bool_decide_eq_true_2 by done.
  rewrite matches_lit. unfold Re.Plus. cbn [Re.matches Re.S_].
  destruct url as [|c u]; [done|]. simpl in Hurl.
  destruct (Str.isspace c) eqn:Hc; [done|]. cbn [negb].
  rewrite star_no_space; done.
Qed.

(** X13: With "Remove source links" on, the output holds none of the lines
    [Original page: https://...] of the browser batch (for a link without
    white space). *)
Theorem process_scraped_text_no_source_link
    (scraped_text : list string) (settings : gmap string bool) (out : list string)
    (url : string) :
  settings !! "Remove source links" = Some true →
  process_scraped_text scraped_text settings = Returns out →
  url ≠ "" → no_space url = true →
  "Original page: https://" +:+ url ∉ out.
Proof.
  intros Hon Hrun Hne Hurl Hin.
  destruct (process_scraped_text_Returns_normal_form _ _ _ Hrun)
    as (b1 & b2 & b3 & b4 & b5 & b6 & b7 & _ & H2 & _ & _ & _ & _ & _ & ->).
  assert (b2 = true) as -> by congruence.
  apply normal_form_passes in Hin as [_ Htests].
  apply Forall_cons_1 in Htests as [Hpass _].
  unfold passes in Hpass. by rewrite search_source_link in Hpass.
Qed.

Lemma process_scraped_text_no_source_link_witness :
  "Original page: https://" +:+ "a.com/x" ∉ ["Hello"].
Proof.
  apply (process_scraped_text_no_source_link
           ["Original page: https://a.com/x"; "Hello"] (settings_of option_labels true)
           ["Hello"] "a.com/x").
  - vm_compute. reflexivity.
  - vm_compute. reflexivity.
  - done.
  - reflexivity.
Defined.

Lemma search_boilerplate rest :
  Re.search boilerplate_pattern
    ("Text-only page created by https://toolsyep.com" +:+ rest) = true.
Proof.
  apply search_matches.
  change ("Text-only page created by https://toolsyep.com" +:+ rest)
    with ("Text-only page created by https://toolsyep"
          +:+ String "." ("com" +:+ rest)).
  unfold boilerplate_pattern. cbn [Re.matches]. rewrite matches_lit.
  cbn [Re.matches Re.dot]. rewrite matches_lit. done.
Qed.

(** X14: Whatever the settings, no line of the output begins with the
    attribution line of the HTTP backend. *)
Theorem process_scraped_text_no_boilerplate
    (scraped_text : list string) (settings : gmap string bool) (out : list string) :
  process_scraped_text scraped_text settings = Returns out →
  Forall (λ line,
            Str.startswith "Text-only page created by https://toolsyep.com" line = false)
         out.
Proof.
  intros Hrun.
  destruct (process_scraped_text_Returns_normal_form _ _ _ Hrun)
    as (b1 & b2 & b3 & b4 & b5 & b6 & b7 & _ & _ & _ & _ & _ & _ & _ & ->).
  apply Forall_forall. intros line Hline.
  apply normal_form_passes in Hline as [_ Htests].
  destruct (Str.startswith _ line) eqn:Hstart; [|done].
  apply startswith_append in Hstart.
  assert (passes true boilerplate_pattern line = true) as Hpass.
  { rewrite Forall_forall in Htests. apply Htests. unfold stage_tests. set_solver. }
  unfold passes in Hpass. rewrite Hstart, search_boilerplate in Hpass. done.
Qed.

Lemma process_scraped_text_no_boilerplate_witness :
  Forall (λ line,
            Str.startswith "Text-only page created by https://toolsyep.com" line = false)
         ["Hello"].
Proof.
  apply (process_scraped_text_no_boilerplate
           ["Text-only page created by https://toolsyep.com/en"; "Hello"]
           (settings_of option_labels false)).
  vm_compute. reflexivity.
Defined.

(** ** Browser backend: what a probe answers *)

Lemma first_error_labels source error_type :
  link_scraping.first_error link_scraping.error_massages source = Some error_type →
  error_type ∈ error_labels.
Proof.
  unfold link_scraping.error_massages, error_labels. cbn [link_scraping.first_error].
  repeat (match goal with |- context [Re.search ?r ?s] => destruct (Re.search r s) end);
    intros [= <-]; set_solver.
Qed.

Lemma probe_answers
    (page : link_scraping.page_load) (css_selector : string)
    (element : option link_scraping.WebElement) (error_type : string) :
  link_scraping._is_element_present page css_selector = Returns (element, error_type) →
  (is_Some element ∧ error_type = "") ∨ (element = None ∧ error_type ∈ error_labels).
Proof.
  unfold link_scraping._is_element_present.
  destruct (link_scraping.wait_loop _); [|done].
  induction (link_scraping.polls page) as [|p ps IH]; cbn [link_scraping.poll_loop]; [done|].
  destruct (link_scraping.Qltb _ _).
  - destruct (link_scraping.find_element p css_selector) as [el| |e].
    + intros [= <- <-]. left. by split; [eexists|].
    + destruct (link_scraping.first_error _ _) as [err|] eqn:Herr; [|done].
      intros [= <- <-]. right. split; [done|]. by eapply first_error_labels.
    + destruct e; try done.
  - intros [= <- <-]. right. split; [done|]. unfold error_labels. set_solver.
Qed.

(** X15: A probe that returns has either an element and the empty error, or no
    element and one of the three error labels. *)
Theorem is_element_present_answers
    (page : link_scraping.page_load) (css_selector : string)
    (element : option link_scraping.WebElement) (error_type : string) :
  link_scraping._is_element_present page css_selector = Returns (element, error_type) →
  (is_Some element ∧ error_type = "") ∨ (element = None ∧ error_type ∈ error_labels).
Proof. apply probe_answers. Qed.

Lemma is_element_present_answers_witness :
  (is_Some (@None link_scraping.WebElement) ∧ "Timed out - element not found!" = "")
  ∨ (@None link_scraping.WebElement = None
     ∧ "Timed out - element not found!" ∈ error_labels).
Proof.
  apply (is_element_present_answers restricted_load "pre").
  vm_compute. reflexivity.
Defined.

(** X16: While the page shows the challenge text or is not completely loaded
    the probe does not get to the polling loop: there is no time limit on
    the wait. *)
Theorem is_element_present_waits
    (page : link_scraping.page_load) (css_selector : string) :
  Forall (λ w, contains "Just a moment..." (link_scraping.wait_page_source w) = true
               ∨ link_scraping.ready_state w ≠ "complete")
         (link_scraping.waits page) →
  link_scraping._is_element_present page css_selector = Pending.
Proof.
  intros Hwait. unfold link_scraping._is_element_present.
  assert (link_scraping.wait_loop (link_scraping.waits page) = false) as ->; [|done].
  induction Hwait as [|w ws Hw Hws IH]; simpl; [done|].
  destruct Hw as [-> | Hw]; [done|].
  rewrite bool_decide_eq_false_2 by done. by rewrite orb_true_r.
Qed.

Lemma is_element_present_waits_witness :
  link_scraping._is_element_present
    {| link_scraping.get_raises := None;
       link_scraping.waits :=
         [ {| link_scraping.wait_page_source := "<title>Just a moment...</title>";
              link_scraping.ready_state := "complete" |};
           {| link_scraping.wait_page_source := "<html></html>";
              link_scraping.ready_state := "loading" |} ];
       link_scraping.polls := link_scraping.polls echo_load |}
    "pre"
  = Pending.
Proof.
  apply is_element_present_waits.
  apply Forall_cons_2; [left; reflexivity|].
  apply Forall_cons_2; [by right | apply Forall_nil_2].
Defined.

(** ** Browser backend: the batch *)

Lemma load_and_probe_Returns (page : link_scraping.page_load) css_selector r :
  link_scraping.load_and_probe page css_selector = Returns r →
  link_scraping._is_element_present page css_selector = Returns r.
Proof. unfold link_scraping.load_and_probe. by destruct (link_scraping.get_raises page). Qed.

Lemma scrape_loop_fetches driver css_selector URLs :
  ∀ n all_scraped_text (invalid_URLs : gmap string string) r,
    link_scraping.scrape_loop driver n URLs css_selector all_scraped_text invalid_URLs
    = Returns r →
    ∀ k url, URLs !! k = Some url →
             ∃ r', browser_fetch driver (n + k) url css_selector = Returns r'.
Proof.
  induction URLs as [|url rest IH]; intros n all_text invalid r Hrun k url' Hk;
    [by rewrite lookup_nil in Hk|].
  cbn [link_scraping.scrape_loop] in Hrun.
  destruct (link_scraping.load_and_probe _ css_selector)
    as [[element error_type]|e|] eqn:Hprobe; [|done..].
  unfold mbind, outcome_bind in Hrun.
  destruct k as [|k]; simpl in Hk.
  - injection Hk as <-. rewrite Nat.add_0_r.
    unfold browser_fetch, browser_probe. rewrite Hprobe. unfold mbind, outcome_bind.
    destruct element as [element|]; [|by eexists].
    destruct (link_scraping.text element); [by eexists|done].
  - replace (n + S k)%nat with (S n + k)%nat by lia.
    destruct element as [element|]; [|by eapply IH].
    destruct (link_scraping.text element); [by eapply IH|done].
Qed.

(** X17: The keys of the [dict] of a batch are the URLs of which a probe failed,
    and the values are error labels. *)
Theorem scrape_urls_invalid_URLs
    (driver : link_scraping.WebDriver) (n : nat) (URLs : list string)
    (css_selector : string) (scraped_text : list string)
    (invalid_URLs : gmap string string) :
  link_scraping._scrape_urls driver n URLs css_selector
  = Returns (scraped_text, invalid_URLs) →
  (∀ key, is_Some (invalid_URLs !! key)
          ↔ ∃ k url error_type,
              URLs !! k = Some url ∧ key = "https://" +:+ url
              ∧ browser_probe driver (n + k) url css_selector
                = Returns (None, error_type))
  ∧ (∀ key error_type,
       invalid_URLs !! key = Some error_type → error_type ∈ error_labels).
Proof.
  intros Hrun. unfold link_scraping._scrape_urls in Hrun.
  pose proof (scrape_loop_fetches _ _ _ _ _ _ _ Hrun) as Hret.
  destruct (scrape_loop_spec driver css_selector URLs n [] ∅ Hret)
    as (invalid & Hrun' & _ & Hrec & Hfrom).
  rewrite Hrun in Hrun'. injection Hrun' as _ <-.
  assert (∀ key e, invalid_URLs !! key = Some e →
            ∃ k url, URLs !! k = Some url ∧ key = "https://" +:+ url
                     ∧ browser_probe driver (n + k) url css_selector = Returns (None, e))
    as Hfrom'.
  { intros key e Hkey. destruct (Hfrom key e Hkey) as [Hempty|?]; [|done].
    by rewrite lookup_empty in Hempty. }
  split.
  - intros key. split.
    + intros [e Hkey]. destruct (Hfrom' _ _ Hkey) as (k & url & ? & ? & ?).
      by exists k, url, e.
    + intros (k & url & e & Hk & -> & Hfail). by eapply Hrec.
  - intros key e Hkey. destruct (Hfrom' _ _ Hkey) as (k & url & _ & _ & Hfail).
    apply load_and_probe_Returns in Hfail.
    destruct (probe_answers _ _ _ _ Hfail) as [[[? [=]] _]|[_ ?]]. done.
Qed.

Lemma scrape_urls_invalid_URLs_witness :
  (∀ key, is_Some (({["https://a.com" := "Timed out - element not found!"]}
                     : gmap string string) !! key)
          ↔ ∃ k url error_type,
              ["a.com"] !! k = Some url ∧ key = "https://" +:+ url
              ∧ browser_probe (λ _ _, restricted_load) (0 + k) url "pre"
                = Returns (None, error_type))
  ∧ (∀ key error_type,
       ({["https://a.com" := "Timed out - element not found!"]} : gmap string string)
         !! key = Some error_type →
       error_type ∈ error_labels).
Proof.
  apply (scrape_urls_invalid_URLs (λ _ _, restricted_load) 0 ["a.com"] "pre" []).
  vm_compute. reflexivity.
Defined.

(** X29: Nothing in [_scrape_urls] catches an exception: when [driver.get],
    the probe or [element.text] raises for a URL, and the fetch of every
    URL before it returned, the batch raises that exception, whatever the
    URLs before it gave and whatever follows. *)
Theorem scrape_urls_raises
    (driver : link_scraping.WebDriver) (n : nat) (URLs : list string)
    (css_selector : string) (k : nat) (url : string) (e : exn) :
  URLs !! k = Some url →
  browser_fetch driver (n + k) url css_selector = Raises e →
  (∀ j url', (j < k)%nat → URLs !! j = Some url' →
     ∃ r, browser_fetch driver (n + j) url' css_selector = Returns r) →
  link_scraping._scrape_urls driver n URLs css_selector = Raises e.
Proof. intros Hk Hraise Hbefore. by eapply scrape_loop_raises. Qed.

Lemma scrape_urls_raises_witness :
  link_scraping._scrape_urls
    (λ n _, match n with
            | 0%nat => echo_load
            | 1%nat => unreachable_load
            | _ => echo_load
            end)
    0 ["a.com"; "b.com"; "c.com"] "pre"
  = Raises (OtherException "WebDriverException").
Proof.
  apply (scrape_urls_raises _ 0 ["a.com"; "b.com"; "c.com"] "pre" 1%nat "b.com").
  - reflexivity.
  - by vm_compute.
  - intros [|j] url' Hj Hurl'; [|lia]. eexists. by vm_compute.
Defined.

(** ** SelectorVerifier: what is returned, and after which prompt *)

Section browser_verifier_result.
Import link_scraping.
Context (driver : WebDriver) (url : string).

(** A run that returns a selector ends with the prompt of that selector,
    which the user confirmed after rejecting every prompt before it. *)
Lemma verify_loop_Returns css_inputs :
  ∀ n scraped_text confirms shown css_selector,
    verify_loop driver n url scraped_text css_inputs confirms
    = (shown, Returns css_selector) →
    ∃ k element error_type element_text before prompt later,
      css_inputs !! k = Some css_selector
      ∧ Str.truthy css_selector = true
      ∧ browser_probe driver (n + k) url css_selector
        = Returns (Some element, error_type)
      ∧ text element = Text element_text
      ∧ shown = before ++ [ScrapedTextDisplay prompt]
      ∧ browser_block url element_text `suffix_of` prompt
      ∧ confirms = replicate (length (displays before)) false ++ true :: later.
Proof.
  induction css_inputs as [|css css_inputs IH];
    intros n scraped_text confirms shown css_selector; cbn [verify_loop]; [done|].
  destruct (Str.truthy css) eqn:Hcss; cbn [negb]; [|done].
  destruct (load_and_probe _ css) as [[[element|] error_type]|e|] eqn:Hprobe;
    [| |done..].
  - destruct (text element) as [element_text|e] eqn:Htext; [|done].
    destruct confirms as [|[|] confirms]; [done|..].
    + intros [= <- <-].
      eexists 0%nat, element, error_type, element_text, [], _, confirms.
      rewrite Nat.add_0_r. split_and!; [done..| |done].
      by apply suffix_app_r.
    + destruct (verify_loop driver (S n) url _ css_inputs confirms)
        as [shown' r] eqn:Hrec.
      intros [= <- ->].
      destruct (IH _ _ _ _ _ Hrec)
        as (k & el & err & el_text & before & prompt & later
            & Hk & Htruthy & Hp & Ht & -> & Hsuffix & ->).
      eexists (S k), el, err, el_text, (ScrapedTextDisplay _ :: _ ++ before), prompt, later.
      replace (n + S k)%nat with (S n + k)%nat by lia.
      split_and!; [done|done|done|done| |done|].
      * simpl. rewrite <-app_assoc. reflexivity.
      * by rewrite displays_display, displays_info.
  - destruct (verify_loop driver (S n) url _ css_inputs confirms)
      as [shown' r] eqn:Hrec.
    intros [= <- ->].
    destruct (IH _ _ _ _ _ Hrec)
      as (k & el & err & el_text & before & prompt & later
          & Hk & Htruthy & Hp & Ht & -> & Hsuffix & ->).
    eexists (S k), el, err, el_text, (_ ++ before), prompt, later.
    replace (n + S k)%nat with (S n + k)%nat by lia.
    split_and!; [done|done|done|done| |done|].
    * by rewrite <-app_assoc.
    * by rewrite displays_info.
Qed.
End browser_verifier_result.

(** X18: The browser verifier returns only a selector that the user entered,
    that is not empty and whose probe found an element; the last dialog of
    the run is the prompt that ends with the source-link line and the lines
    of that element, the user confirmed it, and the user rejected every
    prompt shown before it. *)
Theorem verify_css_selector_returns_confirmed
    (driver : link_scraping.WebDriver) (n : nat) (url : string) (u : user)
    (shown : list dialog) (css_selector : string) :
  link_scraping._verify_css_selector driver n url u = (shown, Returns css_selector) →
  ∃ k element error_type element_text before prompt later,
    inputs u !! k = Some css_selector
    ∧ css_selector ≠ ""
    ∧ browser_probe driver (n + k) url css_selector = Returns (Some element, error_type)
    ∧ link_scraping.text element = link_scraping.Text element_text
    ∧ shown = before ++ [ScrapedTextDisplay prompt]
    ∧ browser_block url element_text `suffix_of` prompt
    ∧ answers u = replicate (length (displays before)) false ++ true :: later.
Proof.
  intros Hrun. unfold link_scraping._verify_css_selector in Hrun.
  destruct (verify_loop_Returns _ _ _ _ _ _ _ _ Hrun)
    as (k & element & e & element_text & before & prompt & later
        & Hk & Htruthy & Hp & Ht & Hshown & Hsuffix & Hconf).
  exists k, element, e, element_text, before, prompt, later.
  split_and!; [done| |done..].
  by intros ->.
Qed.

Lemma verify_css_selector_returns_confirmed_witness :
  ∃ k element error_type element_text before prompt later,
    ["h1"; "h2"; "h3"] !! k = Some "h2"
    ∧ "h2" ≠ ""
    ∧ browser_probe (λ _ _, echo_load) (0 + k) "a.com" "h2"
      = Returns (Some element, error_type)
    ∧ link_scraping.text element = link_scraping.Text element_text
    ∧ [ScrapedTextDisplay [source_link_line "a.com"; "h1"];
       ScrapedTextDisplay [source_link_line "a.com"; "h1";
                           source_link_line "a.com"; "h2"]]
      = before ++ [ScrapedTextDisplay prompt]
    ∧ browser_block "a.com" element_text `suffix_of` prompt
    ∧ [false; true; false] = replicate (length (displays before)) false ++ true :: later.
Proof.
  apply (verify_css_selector_returns_confirmed (λ _ _, echo_load) 0 "a.com"
           {| inputs := ["h1"; "h2"; "h3"]; answers := [false; true; false] |}
           [ScrapedTextDisplay [source_link_line "a.com"; "h1"];
            ScrapedTextDisplay [source_link_line "a.com"; "h1";
                                source_link_line "a.com"; "h2"]]).
  vm_compute. reflexivity.
Defined.

Section http_verifier_result.
Import link_scraping_requests.
Context (w : web) (url : string).

(** A run that returns a selector ends with the prompt of that selector,
    which the user confirmed after rejecting every prompt before it. *)
Lemma http_verify_loop_Returns css_inputs :
  ∀ css_selector confirms shown selected,
    verify_loop w url css_selector css_inputs confirms = (shown, Returns selected) →
    (selected = css_selector ∨ selected ∈ css_inputs)
    ∧ ∃ prompt before later,
        http_prompt w url selected = Some prompt
        ∧ shown = before ++ [ScrapedTextDisplay prompt]
        ∧ confirms = replicate (length (displays before)) false ++ true :: later.
Proof.
  induction css_inputs as [|css_input css_inputs IH];
    intros css_selector confirms shown selected;
    rewrite verify_loop_unfold; cbn zeta; unfold http_prompt.
  - destruct (probe w url css_selector) as [[|line lines]|e|] eqn:Hprobe;
      [done| |by destruct e|done].
    destruct confirms as [|[|] confirms]; [done| |done].
    intros [= <- <-]. rewrite Hprobe. split; [by left|].
    by exists (line :: lines), [], confirms.
  - destruct (probe w url css_selector) as [[|line lines]|e|] eqn:Hprobe.
    + destruct (negb (Str.truthy css_input)); [done|].
      destruct (verify_loop w url css_input css_inputs confirms) as [shown' r] eqn:Hrec.
      intros [= <- ->].
      destruct (IH _ _ _ _ Hrec) as (Hsel & prompt & before & later & Hprompt & -> & ->).
      split; [right; set_solver|].
      eexists prompt, (InfoDialog _ _ :: before), later. by split_and!.
    + destruct confirms as [|[|] confirms]; [done|..].
      * intros [= <- <-]. rewrite Hprobe. split; [by left|].
        by exists (line :: lines), [], confirms.
      * destruct (negb (Str.truthy css_input)); [done|].
        destruct (verify_loop w url css_input css_inputs confirms) as [shown' r] eqn:Hrec.
        intros [= <- ->].
        destruct (IH _ _ _ _ Hrec) as (Hsel & prompt & before & later & Hprompt & -> & ->).
        split; [right; set_solver|].
        exists prompt, (ScrapedTextDisplay (line :: lines) :: before), later.
        by split_and!.
    + destruct e; try done.
      destruct (negb (Str.truthy css_input)); [done|].
      destruct (verify_loop w url css_input css_inputs confirms) as [shown' r] eqn:Hrec.
      intros [= <- ->].
      destruct (IH _ _ _ _ Hrec) as (Hsel & prompt & before & later & Hprompt & -> & ->).
      split; [right; set_solver|].
      eexists prompt, (InfoDialog _ _ :: before), later. by split_and!.
    + done.
Qed.
End http_verifier_result.

(** X20: The HTTP verifier returns only the selector it was called with or one
    the user entered; the fetch with that selector returned at least one
    line that is not empty; the last dialog of the run is the prompt with
    the non-empty lines of that fetch, the user confirmed it, and the user
    rejected every prompt shown before it. *)
Theorem http_verify_css_selector_returns_confirmed
    (w : link_scraping_requests.web) (url css_selector : string) (u : user)
    (shown : list dialog) (selected : string) :
  link_scraping_requests._verify_css_selector w url css_selector u
  = (shown, Returns selected) →
  (selected = css_selector ∨ selected ∈ inputs u)
  ∧ ∃ lines before later,
      link_scraping_requests._parse_url w url selected = Returns lines
      ∧ filter (λ line, Str.truthy line = true) lines ≠ []
      ∧ shown
        = before ++ [ScrapedTextDisplay (filter (λ line, Str.truthy line = true) lines)]
      ∧ answers u = replicate (length (displays before)) false ++ true :: later.
Proof.
  intros Hrun. unfold link_scraping_requests._verify_css_selector in Hrun.
  destruct (http_verify_loop_Returns _ _ _ _ _ _ _ Hrun)
    as (Hsel & prompt & before & later & Hprompt & Hshown & Hconf).
  split; [done|].
  destruct (http_prompt_Some _ _ _ _ Hprompt) as (lines & Hparse & -> & Hne).
  by exists lines, before, later.
Qed.

Lemma http_verify_css_selector_returns_confirmed_witness :
  ("pre" = "body > div > pre" ∨ "pre" ∈ ["pre"; "p"])
  ∧ ∃ lines before later,
      link_scraping_requests._parse_url
        (text_web ("Hello" +:+ line_feed +:+ "World")) "a.com" "pre" = Returns lines
      ∧ filter (λ line, Str.truthy line = true) lines ≠ []
      ∧ [ScrapedTextDisplay ["Hello"; "World"]; ScrapedTextDisplay ["Hello"; "World"]]
        = before ++ [ScrapedTextDisplay (filter (λ line, Str.truthy line = true) lines)]
      ∧ [false; true; false] = replicate (length (displays before)) false ++ true :: later.
Proof.
  apply (http_verify_css_selector_returns_confirmed
           (text_web ("Hello" +:+ line_feed +:+ "World")) "a.com" "body > div > pre"
           {| inputs := ["pre"; "p"]; answers := [false; true; false] |}
           [ScrapedTextDisplay ["Hello"; "World"]; ScrapedTextDisplay ["Hello"; "World"]]).
  vm_compute. reflexivity.
Defined.

(** ** HTTP backend: the fetch *)

(** A transport error the loop retries. *)
Lemma parse_url_loop_not_transient (w : link_scraping_requests.web) gets css_selector :
  link_scraping_requests.parse_url_loop w gets css_selector ≠ Raises ConnectTimeout
  ∧ link_scraping_requests.parse_url_loop w gets css_selector ≠ Raises ProtocolError.
Proof.
  induction gets as [|got gets IH]; cbn [link_scraping_requests.parse_url_loop]; [done|].
  destruct (link_scraping_requests.parse_url_try w got css_selector) as [lines|e|];
    [done| |done].
  destruct e; done.
Qed.

(** X22: [_parse_url] never lets a connection time-out or a protocol error out:
    they are retried inside. *)
Theorem parse_url_never_transient
    (w : link_scraping_requests.web) (url css_selector : string) :
  link_scraping_requests._parse_url w url css_selector ≠ Raises ConnectTimeout
  ∧ link_scraping_requests._parse_url w url css_selector ≠ Raises ProtocolError.
Proof. apply parse_url_loop_not_transient. Qed.

(** X23: Transport errors before an answer leave no trace in the result: the
    fetch returns what it would have returned without them. *)
Theorem parse_url_retries
    (w : link_scraping_requests.web) (css_selector : string)
    (errors rest : list link_scraping_requests.get_outcome) :
  Forall (λ got, got = link_scraping_requests.GetRaises ConnectTimeout
                 ∨ got = link_scraping_requests.GetRaises ProtocolError) errors →
  link_scraping_requests.parse_url_loop w (errors ++ rest) css_selector
  = link_scraping_requests.parse_url_loop w rest css_selector.
Proof.
  induction 1 as [|got errors Hgot Herrors IH]; [done|].
  cbn [app link_scraping_requests.parse_url_loop].
  by destruct Hgot as [-> | ->].
Qed.

Lemma parse_url_retries_witness :
  link_scraping_requests.parse_url_loop (text_web "a")
    ([link_scraping_requests.GetRaises ConnectTimeout;
      link_scraping_requests.GetRaises ProtocolError]
     ++ [link_scraping_requests.Response "<html></html>"]) "pre"
  = link_scraping_requests.parse_url_loop (text_web "a")
      [link_scraping_requests.Response "<html></html>"] "pre".
Proof.
  apply parse_url_retries.
  apply Forall_cons_2; [by left|]. apply Forall_cons_2; [by right|]. apply Forall_nil_2.
Defined.

(** X24: For a first answer in which the selector finds an element of two lines
    or more, the fetch returns the lines, without the first two when the
    second is [HOME]. *)
Theorem parse_url_lines
    (w : link_scraping_requests.web) (url css_selector content get_text : string)
    (later : list link_scraping_requests.get_outcome) (first second : string)
    (rest : list string) :
  link_scraping_requests.requests_get w (link_scraping_requests.LINK_PREFIX +:+ url)
  = link_scraping_requests.Response content :: later →
  link_scraping_requests.select_one w content css_selector
  = link_scraping_requests.Element get_text →
  Str.split_lines get_text = first :: second :: rest →
  link_scraping_requests._parse_url w url css_selector
  = Returns (if decide (second = "HOME") then rest else first :: second :: rest).
Proof.
  intros Hget Hsel Hsplit. unfold link_scraping_requests._parse_url. rewrite Hget.
  cbn [link_scraping_requests.parse_url_loop].
  rewrite (parse_url_try_element w content css_selector get_text first second rest)
    by done.
  done.
Qed.

Lemma parse_url_lines_witness :
  link_scraping_requests._parse_url
    (text_web ("menu" +:+ line_feed +:+ "HOME" +:+ line_feed +:+ "Welcome"))
    "a.com" "pre"
  = Returns (if decide ("HOME" = "HOME") then ["Welcome"]
             else ["menu"; "HOME"; "Welcome"]).
Proof.
  apply (parse_url_lines
           (text_web ("menu" +:+ line_feed +:+ "HOME" +:+ line_feed +:+ "Welcome"))
           "a.com" "pre" "<html></html>"
           ("menu" +:+ line_feed +:+ "HOME" +:+ line_feed +:+ "Welcome") []).
  - reflexivity.
  - reflexivity.
  - vm_compute. reflexivity.
Defined.

(** Splitting a text into lines loses nothing: joined with line feeds, the
    lines give the text back. *)
Theorem join_split_lines (s : string) : join_lines (Str.split_lines s) = s.
Proof.
  induction s as [|c s IH]; [done|]. cbn [Str.split_lines].
  case_decide as Hc.
  - subst c. destruct (Str.split_lines s) as [|l ls] eqn:Hs;
      [by destruct (split_lines_neq_nil s)|].
    change (join_lines ("" :: l :: ls))
      with (String "010" (join_lines (l :: ls))). by rewrite IH.
  - destruct (Str.split_lines s) as [|l ls] eqn:Hs;
      [by destruct (split_lines_neq_nil s)|].
    destruct ls as [|l' ls].
    + change (String c l = String c s). f_equal. exact IH.
    + change (String c (l +:+ line_feed +:+ join_lines (l' :: ls)) = String c s).
      f_equal. exact IH.
Qed.

(** ** HTTP backend: the pool when a fetch raises or never ends *)

Section http_pool.
Import link_scraping_requests.
Context (w : web).

Lemma resolve_lookup_Some urls css_selector (done : futures) j i r :
  resolve w urls css_selector done j !! i = Some r →
  done !! i = Some r
  ∨ ∃ url, urls !! i = Some url ∧ r = _parse_url w url css_selector ∧ r ≠ Pending.
Proof.
  unfold resolve. destruct (urls !! j) as [url|] eqn:Hj; [|by left].
  destruct (_parse_url w url css_selector) as [lines|e|] eqn:Hp; [..|by left].
  - destruct (decide (j = i)) as [->|Hne].
    + rewrite lookup_insert_eq. intros [= <-]. right. exists url. by rewrite Hp.
    + rewrite lookup_insert_ne by done. by left.
  - destruct (decide (j = i)) as [->|Hne].
    + rewrite lookup_insert_eq. intros [= <-]. right. exists url. by rewrite Hp.
    + rewrite lookup_insert_ne by done. by left.
Qed.

(** A future holds nothing but what [_parse_url] did for its URL. *)
Lemma run_workers_lookup_Some urls css_selector completion i r :
  run_workers w urls css_selector completion !! i = Some r →
  ∃ url, urls !! i = Some url ∧ r = _parse_url w url css_selector ∧ r ≠ Pending.
Proof.
  induction completion as [|j completion IH] using rev_ind.
  - unfold run_workers. simpl. by rewrite lookup_empty.
  - rewrite run_workers_snoc. intros [?|?]%resolve_lookup_Some; auto.
Qed.

Lemma all_done_false (done : futures) total i :
  (i < total)%nat → done !! i = None → all_done done total = false.
Proof.
  intros Hi Hnone. apply not_true_is_false. unfold all_done.
  rewrite forallb_forall. intros Hall.
  specialize (Hall i). rewrite bool_decide_eq_true, Hnone in Hall.
  destruct Hall as [? [=]]. apply in_seq. lia.
Qed.

Lemma collect_not_all_done (done : futures) total remaining :
  all_done done total = false →
  ∀ i text, collect done total i remaining text = Pending.
Proof.
  intros Hnot. induction remaining as [|remaining IH]; intros i text; simpl.
  - by rewrite Hnot.
  - destruct (done !! i) as [[lines|e|]|]; [apply IH|by rewrite Hnot|done..].
Qed.

Lemma collect_raises (done : futures) total i blocks text e :
  (∀ k lines, blocks !! k = Some lines → done !! (i + k)%nat = Some (Returns lines)) →
  done !! (i + length blocks)%nat = Some (Raises e) →
  all_done done total = true →
  ∀ remaining, collect done total i (length blocks + S remaining) text = Raises e.
Proof.
  intros Hblocks Hraise Hall remaining. revert i text Hblocks Hraise.
  induction blocks as [|lines blocks IH]; intros i text Hblocks Hraise; simpl.
  - rewrite Nat.add_0_r in Hraise. by rewrite Hraise, Hall.
  - rewrite <-(Nat.add_0_r i) at 1. rewrite (Hblocks 0%nat lines) by done.
    apply IH.
    + intros k lines' Hk. replace (S i + k)%nat with (i + S k)%nat by lia.
      by apply Hblocks.
    + by replace (S i + length blocks)%nat with (i + length (lines :: blocks))%nat
        by (simpl; lia).
Qed.
End http_pool.

(** X25: A fetch that never ends keeps the whole batch from returning, in every
    order of completion. *)
Theorem scrape_urls_requests_pending
    (w : link_scraping_requests.web) (urls : list string) (css_selector : string)
    (completion : list nat) (url : string) :
  url ∈ urls →
  link_scraping_requests._parse_url w url css_selector = Pending →
  link_scraping_requests._scrape_urls_requests w urls css_selector completion = Pending.
Proof.
  intros Hurl Hpending. apply list_elem_of_lookup in Hurl as [i Hi].
  unfold link_scraping_requests._scrape_urls_requests.
  apply collect_not_all_done. apply (all_done_false _ _ i); [by eapply lookup_lt_Some|].
  destruct (link_scraping_requests.run_workers w urls css_selector completion !! i)
    as [r|] eqn:Hr; [|done].
  apply run_workers_lookup_Some in Hr as (url' & Hi' & -> & Hne). congruence.
Qed.

Lemma scrape_urls_requests_pending_witness :
  link_scraping_requests._scrape_urls_requests
    {| link_scraping_requests.requests_get := λ _,
         [link_scraping_requests.GetRaises ConnectTimeout;
          link_scraping_requests.GetRaises ConnectTimeout];
       link_scraping_requests.select_one := λ _ _, link_scraping_requests.NoElement |}
    ["a.com"; "b.com"] "pre" [1; 0]%nat
  = Pending.
Proof.
  apply (scrape_urls_requests_pending _ _ _ _ "b.com").
  - set_solver.
  - reflexivity.
Defined.

(** X26: When every fetch ends and the first fetch, in the order of submission,
    that raises, raises [e], the batch raises [e], in every order of
    completion. *)
Theorem scrape_urls_requests_raises
    (w : link_scraping_requests.web) (urls : list string) (css_selector : string)
    (completion : list nat) (blocks : list (list string)) (url : string) (e : exn)
    (later : list string) :
  completion ≡ₚ seq 0 (length urls) →
  urls = take (length blocks) urls ++ url :: later →
  Forall2 (λ url lines,
             link_scraping_requests._parse_url w url css_selector = Returns lines)
          (take (length blocks) urls) blocks →
  link_scraping_requests._parse_url w url css_selector = Raises e →
  Forall (λ url, link_scraping_requests._parse_url w url css_selector ≠ Pending) later →
  link_scraping_requests._scrape_urls_requests w urls css_selector completion = Raises e.
Proof.
  intros Hperm Hurls Hblocks Hraise Hlater.
  unfold link_scraping_requests._scrape_urls_requests.
  set (done := link_scraping_requests.run_workers w urls css_selector completion).
  assert (∀ i u, urls !! i = Some u →
            link_scraping_requests._parse_url w u css_selector ≠ Pending →
            done !! i = Some (link_scraping_requests._parse_url w u css_selector))
    as Hdone.
  { intros i u Hi Hne. apply run_workers_lookup; [|done..].
    rewrite Hperm. apply elem_of_seq. apply lookup_lt_Some in Hi. lia. }
  assert (length (take (length blocks) urls) = length blocks) as Hlen
    by (by apply Forall2_length in Hblocks).
  assert (∀ i u, urls !! i = Some u →
            link_scraping_requests._parse_url w u css_selector ≠ Pending) as Hends.
  { intros i u Hi. rewrite Hurls in Hi.
    apply lookup_app_Some in Hi as [Hi|[_ Hi]].
    - destruct (Forall2_lookup_l _ _ _ _ _ Hblocks Hi) as (lines & _ & ->). done.
    - destruct (i - _)%nat as [|j]; simpl in Hi.
      + injection Hi as <-. by rewrite Hraise.
      + rewrite Forall_forall in Hlater. apply Hlater. by eapply list_elem_of_lookup_2. }
  assert (length urls = (length blocks + S (length later))%nat) as Htotal.
  { rewrite Hurls at 1. rewrite length_app, Hlen. simpl. lia. }
  rewrite Htotal at 2.
  apply collect_raises.
  - intros k lines Hk. simpl.
    destruct (Forall2_lookup_r _ _ _ _ _ Hblocks Hk) as (u & Hu & Hret).
    rewrite <-Hret. apply Hdone; [|by rewrite Hret].
    rewrite Hurls. by apply lookup_app_l_Some.
  - simpl. rewrite <-Hraise. apply Hdone; [|by rewrite Hraise].
    rewrite Hurls. rewrite lookup_app_r by lia. by rewrite Hlen, Nat.sub_diag.
  - apply all_done_true. intros i Hi.
    destruct (lookup_lt_is_Some_2 urls i Hi) as [u Hu].
    rewrite (Hdone i u Hu); [by eexists | by eapply Hends].
Qed.

Lemma scrape_urls_requests_raises_witness :
  link_scraping_requests._scrape_urls_requests (text_web "hello") ["a.com"; "b.com"] "pre"
    [1; 0]%nat
  = Raises IndexError.
Proof.
  apply (scrape_urls_requests_raises (text_web "hello") ["a.com"; "b.com"] "pre"
           [1; 0]%nat [] "a.com" IndexError ["b.com"]).
  - exact (Permutation_cons_append [0]%nat 1%nat).
  - reflexivity.
  - constructor.
  - reflexivity.
  - apply Forall_cons_2; [done | apply Forall_nil_2].
Defined.

(** ** Picking the file of links *)

Section browse.
Import file_processing.

(** What [_process_file] returns was read from one of the chosen files, by
    the reader that the suffix of its name selects, and a text file never
    gives the empty list. *)
Lemma process_file_Returns files :
  ∀ shown links remaining,
    _process_file files = (shown, Returns links, remaining) →
    remaining `suffix_of` files
    ∧ ∃ f, f ∈ files ∧ file f ≠ ""
           ∧ ((Str.endswith ".xml" (file f) = true ∧ read_xml f = XmlFrame (Some links))
              ∨ (Str.endswith ".xml" (file f) = false
                 ∧ Str.endswith ".txt" (file f) = true
                 ∧ readlines f = TxtLines links
                 ∧ links ≠ [])).
Proof.
  induction files as [|f rest IH]; intros shown links remaining; cbn [_process_file]; [done|].
  assert (∀ shown links remaining,
            (let '(shown, r, remaining) := _process_file rest in
             (invalid_file :: shown, r, remaining)) = (shown, Returns links, remaining) →
            remaining `suffix_of` f :: rest
            ∧ ∃ f', f' ∈ f :: rest ∧ file f' ≠ ""
                ∧ ((Str.endswith ".xml" (file f') = true
                    ∧ read_xml f' = XmlFrame (Some links))
                   ∨ (Str.endswith ".xml" (file f') = false
                      ∧ Str.endswith ".txt" (file f') = true
                      ∧ readlines f' = TxtLines links ∧ links ≠ []))) as Hagain.
  { intros shown' links' remaining'.
    destruct (_process_file rest) as [[shown0 r0] remaining0] eqn:Hrec.
    intros [= <- -> ->]. destruct (IH _ _ _ eq_refl) as (Hsuf & f' & Hf' & Hrest).
    split; [by apply suffix_cons_r|]. exists f'. split; [by right | done]. }
  destruct (Str.truthy (file f)) eqn:Htruthy; cbn [negb]; [|done].
  assert (file f ≠ "") as Hname by (intros Heq; by rewrite Heq in Htruthy).
  destruct (Str.endswith ".xml" (file f)) eqn:Hxml.
  - destruct (read_xml f) as [e|[loc|]] eqn:Hread; [done| |apply Hagain].
    intros [= <- <- <-]. split; [by apply suffix_cons_r|].
    exists f. split_and!; [by left|done|by left].
  - destruct (Str.endswith ".txt" (file f)) eqn:Htxt; [|apply Hagain].
    destruct (readlines f) as [e|[|link links']] eqn:Hread; [done|apply Hagain|].
    intros [= <- <- <-]. split; [by apply suffix_cons_r|].
    exists f. split_and!; [by left|done|by right].
Qed.

Lemma browse_and_process_file_Returns answers :
  ∀ files shown processed_links,
    browse_and_process_file files answers = (shown, Returns processed_links) →
    processed_links ≠ []
    ∧ ∃ f links,
        f ∈ files ∧ file f ≠ "" ∧ processed_links = _preprocess_links links
        ∧ ((Str.endswith ".xml" (file f) = true ∧ read_xml f = XmlFrame (Some links))
           ∨ (Str.endswith ".xml" (file f) = false
              ∧ Str.endswith ".txt" (file f) = true
              ∧ readlines f = TxtLines links
              ∧ links ≠ [])).
Proof.
  induction answers as [|answer answers IH]; intros files shown processed.
  - cbn [browse_and_process_file].
    destruct (_process_file files) as [[shown0 [links| |]] remaining] eqn:Hfile; [|done..].
    destruct (_preprocess_links links) as [|p ps] eqn:Hpre; [done|].
    intros [= <- <-]. split; [done|].
    destruct (process_file_Returns _ _ _ _ Hfile) as (_ & f & Hf & Hname & Hread).
    by exists f, links.
  - cbn [browse_and_process_file].
    destruct (_process_file files) as [[shown0 [links| |]] remaining] eqn:Hfile; [|done..].
    destruct (process_file_Returns _ _ _ _ Hfile) as (Hsuf & f & Hf & Hname & Hread).
    destruct (_preprocess_links links) as [|p ps] eqn:Hpre.
    + destruct answer as [answer|]; [|done].
      case_decide; [done|].
      destruct (browse_and_process_file remaining answers) as [shown' r'] eqn:Hrec.
      intros [= <- ->]. destruct (IH _ _ _ Hrec) as (Hne & f' & links' & Hf' & Hrest).
      split; [done|]. exists f', links'. split; [|done].
      destruct Hsuf as [skipped ->]. apply elem_of_app. by right.
    + intros [= <- <-]. split; [done|]. by exists f, links.
Qed.
End browse.

(** X27: [browse_and_process_file] never returns the empty list, and what it
    returns is the normalizer's output for the links of one of the chosen
    files, read by the reader that the suffix of its name selects: the
    column [loc] of [read_xml] for a name that ends in [.xml], the lines of
    [readlines], of which there is at least one, for a name that does not
    and ends in [.txt]. *)
Theorem browse_and_process_file_non_empty
    (files : list file_processing.chosen_file) (answers : list (option string))
    (shown : list file_processing.file_dialog) (processed_links : list string) :
  file_processing.browse_and_process_file files answers
  = (shown, Returns processed_links) →
  processed_links ≠ []
  ∧ ∃ f links,
      f ∈ files ∧ file_processing.file f ≠ ""
      ∧ processed_links = _preprocess_links links
      ∧ ((Str.endswith ".xml" (file_processing.file f) = true
          ∧ file_processing.read_xml f = file_processing.XmlFrame (Some links))
         ∨ (Str.endswith ".xml" (file_processing.file f) = false
            ∧ Str.endswith ".txt" (file_processing.file f) = true
            ∧ file_processing.readlines f = file_processing.TxtLines links
            ∧ links ≠ [])).
Proof. apply browse_and_process_file_Returns. Qed.

(** The text file has lines but no suitable link, and the user picks again:
    the links are those of the [.xml] file, although its [readlines] is
    there as well. *)
Lemma browse_and_process_file_non_empty_witness :
  ["a.com"] ≠ []
  ∧ ∃ f links,
      f ∈ [ {| file_processing.file := "notes.txt";
               file_processing.read_xml :=
                 file_processing.XmlFrame (Some ["https://wrong.org"]);
               file_processing.readlines := file_processing.TxtLines ["ftp://x.org"] |};
            {| file_processing.file := "sitemap.xml";
               file_processing.read_xml :=
                 file_processing.XmlFrame (Some ["https://a.com"]);
               file_processing.readlines :=
                 file_processing.TxtLines ["https://wrong.org"] |} ]
      ∧ file_processing.file f ≠ ""
      ∧ ["a.com"] = _preprocess_links links
      ∧ ((Str.endswith ".xml" (file_processing.file f) = true
          ∧ file_processing.read_xml f = file_processing.XmlFrame (Some links))
         ∨ (Str.endswith ".xml" (file_processing.file f) = false
            ∧ Str.endswith ".txt" (file_processing.file f) = true
            ∧ file_processing.readlines f = file_processing.TxtLines links
            ∧ links ≠ [])).
Proof.
  apply (browse_and_process_file_non_empty _ [Some "Yes"] [file_processing.no_links]).
  vm_compute. reflexivity.
Defined.

(** ** From the settings dialog to the pipeline *)

Lemma confirm_selection_lookup (checked : string → bool) (key : string) :
  key ∈ option_labels →
  gui.SettingsSelector checked true !! key = Some (checked key).
Proof.
  unfold option_labels. rewrite !elem_of_cons, elem_of_nil.
  intros [->|[->|[->|[->|[->|[->|[->|[]]]]]]]]; reflexivity.
Qed.

(** X28: The settings that [get_user_input] returns hold, for every label of
    the dialog, the state of its check box, and the pipeline run with them
    returns: it cannot raise a [KeyError]. *)
Theorem get_user_input_settings
    (selected_method : string) (checked : string → bool) (confirm_clicked : bool)
    (method : string) (settings : gmap string bool) (scraped_text : list string) :
  gui.get_user_input selected_method (gui.SettingsSelector checked confirm_clicked)
  = Returns (method, settings) →
  (∀ key, key ∈ option_labels → settings !! key = Some (checked key))
  ∧ ∃ out, process_scraped_text scraped_text settings = Returns out.
Proof.
  unfold gui.get_user_input.
  destruct (negb (Str.truthy selected_method)); [done|].
  destruct confirm_clicked; [|done].
  case_bool_decide; [done|]. intros [= <- <-].
  assert (∀ key, key ∈ option_labels →
            gui.SettingsSelector checked true !! key = Some (checked key)) as Hkeys
    by apply confirm_selection_lookup.
  split; [done|]. eexists.
  apply process_scraped_text_normal_form; apply Hkeys; unfold option_labels; set_solver.
Qed.

Lemma get_user_input_settings_witness :
  (∀ key, key ∈ option_labels →
          gui.SettingsSelector (λ _, true) true !! key = Some true)
  ∧ ∃ out, process_scraped_text [" a "]
             (gui.SettingsSelector (λ _, true) true) = Returns out.
Proof.
  apply (get_user_input_settings "Toolsyep" (λ _, true) true "Toolsyep"
           (gui.SettingsSelector (λ _, true) true) [" a "]).
  vm_compute. reflexivity.
Defined.
